(** * three-troika-ui: the box layout of [UIPanel]

    A shallow embedding of [src/UIPanel.ts] (with the parts of
    [src/UIElement.ts] and [src/UIBox.ts] it relies on) and the properties
    of its flex-like layout pass; and of [UIProgressBar], another user of
    [UIBox].

    - A JavaScript [number] is a value of a type [num] carrying the
      operations the source applies to it (class [Number]).  Two instances
      are given: [float] (IEEE-754 binary64, what the engine computes with)
      and [Qc] (exact rationals, on which algebraic identities are stated).
    - Objects live in a heap: UI elements are addressed by identifiers, so
      that one element listed twice in a panel is one object; arrays are
      addressed by locations, so that two arrays with equal contents are
      still two arrays.
    - Methods are state transformers on a [World]: the panel under study
      together with the heap it points into.  The panel's fields are
      private, and so is its background [UIBox], which is kept inside the
      panel's state: code outside the panel changes the heap only.
    - The scene graph ([super.add], [super.remove]), meshes, materials and
      geometry belong to the rendering engine and are not modelled; the
      panel is assumed not to be listed among its own children.
    - Statements that hold for every [Number] hold for the binary64
      computation as it is.  Identities that need the laws of arithmetic
      (a sum that does not depend on the order of its terms, [a + g - g = a])
      are stated on [Qc]: rounding is left out of them.  The numeric
      scenarios of the specification are evaluated on [float].  What is
      said of every binary64 number (the clamp of [setValue]) rests on the
      standard library's specification of the primitive comparisons. *)

From Stdlib Require Import ZArith List Bool Arith Lia.
From Stdlib Require Import QArith Qcanon.
From Stdlib Require Import PrimFloat Uint63.
From Stdlib Require Import SpecFloat FloatOps FloatAxioms.
Import ListNotations.
Close Scope Qc_scope.
Close Scope Q_scope.

Set Implicit Arguments.

(** ** Numbers *)

Class Number (num : Type) : Type := {
  of_Z : Z -> num;              (* integer literals and [Array.length] *)
  lit_0_01 : num;               (* the literal [0.01] *)
  add : num -> num -> num;
  sub : num -> num -> num;
  mul : num -> num -> num;
  div : num -> num -> num;
  neg : num -> num;
  Math_max : num -> num -> num;
  truthy : num -> bool          (* ToBoolean on a number *)
}.

Declare Scope js_scope.
Delimit Scope js_scope with js.
Infix "+" := add : js_scope.
Infix "-" := sub : js_scope.
Infix "*" := mul : js_scope.
Infix "/" := div : js_scope.
Notation "- a" := (neg a) : js_scope.
Notation "0" := (of_Z 0) : js_scope.
Notation "1" := (of_Z 1) : js_scope.
Notation "2" := (of_Z 2) : js_scope.

(** [Math.max] on binary64: NaN is contagious and [+0] is larger than [-0]. *)
Definition float_max (a b : float) : float :=
  if (PrimFloat.is_nan a || PrimFloat.is_nan b)%bool then PrimFloat.nan
  else if PrimFloat.ltb a b then b
  else if PrimFloat.ltb b a then a
  else if PrimFloat.get_sign a then b else a.

(** Integers of magnitude below [2^53] (array lengths, colour codes, small
    literals) are converted exactly. *)
Definition float_of_Z (n : Z) : float :=
  if (n <? 0)%Z then PrimFloat.opp (PrimFloat.of_uint63 (Uint63.of_Z (- n)))
  else PrimFloat.of_uint63 (Uint63.of_Z n).

Definition float_truthy (a : float) : bool :=
  negb (PrimFloat.is_nan a || PrimFloat.is_zero a).

#[export] Instance Number_float : Number float := {|
  of_Z := float_of_Z;
  lit_0_01 := 0x1.47ae147ae147bp-7%float;   (* 0.01 rounded to binary64 *)
  add := PrimFloat.add;
  sub := PrimFloat.sub;
  mul := PrimFloat.mul;
  div := PrimFloat.div;
  neg := PrimFloat.opp;
  Math_max := float_max;
  truthy := float_truthy
|}.

Definition Qc_of_Z (n : Z) : Qc := Q2Qc (inject_Z n).

Definition Qc_max (a b : Qc) : Qc :=
  match (a ?= b)%Qc with Lt => b | _ => a end.

Definition Qc_truthy (a : Qc) : bool := negb (Qc_eq_bool a (Q2Qc 0)).

#[export] Instance Number_Qc : Number Qc := {|
  of_Z := Qc_of_Z;
  lit_0_01 := Q2Qc (1 # 100);
  add := Qcplus;
  sub := Qcminus;
  mul := Qcmult;
  div := Qcdiv;
  neg := Qcopp;
  Math_max := Qc_max;
  truthy := Qc_truthy
|}.

(** ** The heap *)

Definition eid := nat.   (* identity of a UI element *)
Definition loc := nat.   (* identity of an array *)

(** In-place update of one heap cell. *)
Definition upd {A : Type} (h : nat -> A) (i : nat) (a : A) : nat -> A :=
  fun j => if Nat.eqb j i then a else h j.

(** ** UIElement.ts *)

Record Vector3 (num : Type) : Type := { x : num; y : num; z : num }.

Module UIElement.
Section Defs.
Context {num : Type} {N : Number num}.

Record t : Type := { _width : num; _height : num; position : Vector3 num }.

Definition width (e : t) : num := _width e.
Definition height (e : t) : num := _height e.

Definition setSize (w h : num) (e : t) : t :=
  {| _width := w; _height := h; position := position e |}.

Definition set_position (p : Vector3 num) (e : t) : t :=
  {| _width := _width e; _height := _height e; position := p |}.

End Defs.
Arguments t num : clear implicits.
End UIElement.

(** ** UIBox.ts: the background visual *)

(** [c ?? d] on an optional configuration field. *)
Definition nullish {A : Type} (c : option A) (d : A) : A :=
  match c with Some a => a | None => d end.

Module UIBoxConfig.
Record t (num : Type) : Type := {
  width : option num;
  height : option num;
  color : option num;
  opacity : option num;
  borderRadius : option num;
  borderWidth : option num;
  borderColor : option num
}.
End UIBoxConfig.

Module UIBox.
Section Defs.
Context {num : Type} {N : Number num}.
Local Open Scope js_scope.

Record t : Type := {
  _width : num;
  _height : num;
  _color : num;
  _opacity : num;
  _borderRadius : num;
  _borderWidth : num;
  _borderColor : num
}.

Definition new (config : UIBoxConfig.t num) : t :=
  {| _width := nullish (UIBoxConfig.width config) 1;
     _height := nullish (UIBoxConfig.height config) 1;
     _color := nullish (UIBoxConfig.color config) (of_Z 0x333333);
     _opacity := nullish (UIBoxConfig.opacity config) 1;
     _borderRadius := nullish (UIBoxConfig.borderRadius config) 0;
     _borderWidth := nullish (UIBoxConfig.borderWidth config) 0;
     _borderColor := nullish (UIBoxConfig.borderColor config) (of_Z 0xffffff) |}.

Definition setColor (color : num) (b : t) : t :=
  {| _width := _width b; _height := _height b; _color := color;
     _opacity := _opacity b; _borderRadius := _borderRadius b;
     _borderWidth := _borderWidth b; _borderColor := _borderColor b |}.

Definition setBorder (width color : num) (b : t) : t :=
  {| _width := _width b; _height := _height b; _color := _color b;
     _opacity := _opacity b; _borderRadius := _borderRadius b;
     _borderWidth := width; _borderColor := color |}.

Definition setSize (width height : num) (b : t) : t :=
  {| _width := width; _height := height; _color := _color b;
     _opacity := _opacity b; _borderRadius := _borderRadius b;
     _borderWidth := _borderWidth b; _borderColor := _borderColor b |}.

End Defs.
Arguments t num : clear implicits.
End UIBox.

(** ** UIPanel.ts *)

Inductive LayoutDirection : Set := horizontal | vertical.
Inductive LayoutAlign : Set := align_start | align_center | align_end.
Inductive LayoutJustify : Set :=
  | justify_start | justify_center | justify_end
  | justify_space_between | justify_space_around.

Module UIPanelConfig.
Record t (num : Type) : Type := {
  width : option num;
  height : option num;
  padding : option (num + num * num * num * num);  (* top, right, bottom, left *)
  gap : option num;
  direction : option LayoutDirection;
  align : option LayoutAlign;
  justify : option LayoutJustify;
  backgroundColor : option num;
  backgroundOpacity : option num;
  borderRadius : option num;
  borderWidth : option num;
  borderColor : option num;
  autoSize : option bool
}.
End UIPanelConfig.

Module UIPanel.
Section Defs.
Context {num : Type} {N : Number num}.
Local Open Scope js_scope.

Record t : Type := {
  _width : num;
  _height : num;
  background : option (UIBox.t num);
  _children : loc;
  _padding : num * num * num * num;
  _gap : num;
  _direction : LayoutDirection;
  _align : LayoutAlign;
  _justify : LayoutJustify;
  _autoSize : bool
}.

Record Heap : Type := {
  elems : eid -> UIElement.t num;
  arrays : loc -> list eid;
  next_loc : loc
}.

(** The panel under study and the heap its references point into. *)
Record World : Type := { this : t; heap : Heap }.

Definition alloc (l : list eid) (h : Heap) : loc * Heap :=
  (next_loc h,
   {| elems := elems h; arrays := upd (arrays h) (next_loc h) l;
      next_loc := S (next_loc h) |}).

Definition set_array (a : loc) (l : list eid) (h : Heap) : Heap :=
  {| elems := elems h; arrays := upd (arrays h) a l; next_loc := next_loc h |}.

Definition set_elems (e : eid -> UIElement.t num) (h : Heap) : Heap :=
  {| elems := e; arrays := arrays h; next_loc := next_loc h |}.

(** The contents of [this._children]. *)
Definition children (w : World) : list eid := arrays (heap w) (_children (this w)).

Definition paddingTop (p : t) : num := let '(a, _, _, _) := _padding p in a.
Definition paddingRight (p : t) : num := let '(_, b, _, _) := _padding p in b.
Definition paddingBottom (p : t) : num := let '(_, _, c, _) := _padding p in c.
Definition paddingLeft (p : t) : num := let '(_, _, _, d) := _padding p in d.

Definition resolve_padding (padding : num + num * num * num * num)
  : num * num * num * num :=
  match padding with
  | inl n => (n, n, n, n)
  | inr quad => quad
  end.

(** [constructor(config)] *)
Definition new (config : UIPanelConfig.t num) (h : Heap) : World :=
  let width := nullish (UIPanelConfig.width config) 1 in
  let height := nullish (UIPanelConfig.height config) 1 in
  let '(arr, h') := alloc [] h in
  {| this :=
       {| _width := width;
          _height := height;
          background :=
            if match UIPanelConfig.backgroundColor config with
               | Some _ => true
               | None =>
                   match UIPanelConfig.borderWidth config with
                   | Some bw => truthy bw
                   | None => false
                   end
               end
            then
              Some (UIBox.new
                {| UIBoxConfig.width := Some width;
                   UIBoxConfig.height := Some height;
                   UIBoxConfig.color :=
                     Some (nullish (UIPanelConfig.backgroundColor config) (of_Z 0x000000));
                   UIBoxConfig.opacity :=
                     Some (nullish (UIPanelConfig.backgroundOpacity config) 1);
                   UIBoxConfig.borderRadius :=
                     Some (nullish (UIPanelConfig.borderRadius config) 0);
                   UIBoxConfig.borderWidth :=
                     Some (nullish (UIPanelConfig.borderWidth config) 0);
                   UIBoxConfig.borderColor :=
                     Some (nullish (UIPanelConfig.borderColor config) (of_Z 0xffffff)) |})
            else None;
          _children := arr;
          _padding :=
            match UIPanelConfig.padding config with
            | Some padding => resolve_padding padding
            | None => (0, 0, 0, 0)
            end;
          _gap := nullish (UIPanelConfig.gap config) 0;
          _direction := nullish (UIPanelConfig.direction config) vertical;
          _align := nullish (UIPanelConfig.align config) align_center;
          _justify := nullish (UIPanelConfig.justify config) justify_start;
          _autoSize := nullish (UIPanelConfig.autoSize config) false |};
     heap := h' |}.

(** *** [layout] *)

Definition contentWidth (p : t) : num := _width p - paddingLeft p - paddingRight p.
Definition contentHeight (p : t) : num := _height p - paddingTop p - paddingBottom p.

Definition childMainSize (d : LayoutDirection) (c : UIElement.t num) : num :=
  match d with horizontal => UIElement.width c | vertical => UIElement.height c end.

Definition childCrossSize (d : LayoutDirection) (c : UIElement.t num) : num :=
  match d with horizontal => UIElement.height c | vertical => UIElement.width c end.

(** The first loop: the accumulator is [(totalMainSize, maxCrossSize)]. *)
Definition measure_step (d : LayoutDirection) (els : eid -> UIElement.t num)
  (acc : num * num) (child : eid) : num * num :=
  (fst acc + childMainSize d (els child),
   Math_max (snd acc) (childCrossSize d (els child))).

Definition measure (d : LayoutDirection) (els : eid -> UIElement.t num)
  (cs : list eid) : num * num :=
  fold_left (measure_step d els) cs (0, 0).

Definition count (cs : list eid) : num := of_Z (Z.of_nat (length cs)).

Definition totalMainSize (p : t) (els : eid -> UIElement.t num) (cs : list eid) : num :=
  fst (measure (_direction p) els cs) + _gap p * (count cs - 1).

Definition maxCrossSize (p : t) (els : eid -> UIElement.t num) (cs : list eid) : num :=
  snd (measure (_direction p) els cs).

Definition with_size (width height : num) (bg : option (UIBox.t num)) (p : t) : t :=
  {| _width := width; _height := height; background := bg;
     _children := _children p; _padding := _padding p; _gap := _gap p;
     _direction := _direction p; _align := _align p; _justify := _justify p;
     _autoSize := _autoSize p |}.

(** [this._width = ..; this._height = ..; if (this.background) this.background.setSize(..)] *)
Definition resize (width height : num) (p : t) : t :=
  with_size width height
    (match background p with
     | Some b => Some (UIBox.setSize width height b)
     | None => None
     end) p.

(** The [if (this._autoSize)] block. *)
Definition autoSize (total maxCross : num) (p : t) : t :=
  if _autoSize p then
    match _direction p with
    | horizontal =>
        resize (total + paddingLeft p + paddingRight p)
               (maxCross + paddingTop p + paddingBottom p) p
    | vertical =>
        resize (maxCross + paddingLeft p + paddingRight p)
               (total + paddingTop p + paddingBottom p) p
    end
  else p.

(** The content extent along the main axis. *)
Definition mainSize (p : t) : num :=
  match _direction p with
  | horizontal => contentWidth p
  | vertical => contentHeight p
  end.

Definition mainStart (p : t) : num :=
  match _direction p with
  | horizontal => - _width p / 2 + paddingLeft p
  | vertical => _height p / 2 - paddingTop p
  end.

(** The [switch (this._justify)]: the initial [mainPos] and the [spacing]. *)
Definition justify (p : t) (n mainStart mainSize total : num) (more_than_one : bool)
  : num * num :=
  match _justify p with
  | justify_start => (mainStart, _gap p)
  | justify_center => (mainStart + (mainSize - total) / 2, _gap p)
  | justify_end => (mainStart + mainSize - total, _gap p)
  | justify_space_between =>
      (mainStart,
       if more_than_one
       then (mainSize - (total - _gap p * (n - 1))) / (n - 1)
       else _gap p)
  | justify_space_around =>
      let spacing := (mainSize - (total - _gap p * (n - 1))) / (n + 1) in
      (mainStart + spacing, spacing)
  end.

(** The [switch (this._align)] inside the second loop. *)
Definition crossPos (p : t) (crossSize : num) : num :=
  match _align p with
  | align_start =>
      match _direction p with
      | horizontal => - _height p / 2 + paddingBottom p + crossSize / 2
      | vertical => - _width p / 2 + paddingLeft p + crossSize / 2
      end
  | align_center => 0
  | align_end =>
      match _direction p with
      | horizontal => _height p / 2 - paddingTop p - crossSize / 2
      | vertical => _width p / 2 - paddingRight p - crossSize / 2
      end
  end.

(** The second loop: each child's position is written in place. *)
Fixpoint place (p : t) (spacing : num) (cs : list eid) (mainPos : num)
  (els : eid -> UIElement.t num) : eid -> UIElement.t num :=
  match cs with
  | [] => els
  | child :: rest =>
      let c := els child in
      let main := childMainSize (_direction p) c in
      let cross := crossPos p (childCrossSize (_direction p) c) in
      match _direction p with
      | horizontal =>
          place p spacing rest (mainPos + (main + spacing))
            (upd els child
               (UIElement.set_position
                  {| x := mainPos + main / 2; y := cross; z := lit_0_01 |} c))
      | vertical =>
          place p spacing rest (mainPos - (main + spacing))
            (upd els child
               (UIElement.set_position
                  {| x := cross; y := mainPos - main / 2; z := lit_0_01 |} c))
      end
  end.

(** One iteration of the second loop, split into the position it writes
    and the next value of [mainPos]. *)
Definition placement (p : t) (mainPos : num) (c : UIElement.t num) : Vector3 num :=
  let main := childMainSize (_direction p) c in
  let cross := crossPos p (childCrossSize (_direction p) c) in
  match _direction p with
  | horizontal => {| x := mainPos + main / 2; y := cross; z := lit_0_01 |}
  | vertical => {| x := cross; y := mainPos - main / 2; z := lit_0_01 |}
  end.

Definition advance (p : t) (spacing mainPos : num) (c : UIElement.t num) : num :=
  let main := childMainSize (_direction p) c in
  match _direction p with
  | horizontal => mainPos + (main + spacing)
  | vertical => mainPos - (main + spacing)
  end.

Definition layout (w : World) : World :=
  match children w with
  | [] => w
  | _ :: _ =>
      let p := this w in
      let cs := children w in
      let els := elems (heap w) in
      (* contentWidth and contentHeight are read here, on entry *)
      let mainSize := mainSize p in
      let total := totalMainSize p els cs in
      let maxCross := maxCrossSize p els cs in
      let p' := autoSize total maxCross p in
      let '(mainPos, spacing) :=
        justify p (count cs) (mainStart p') mainSize total (1 <? length cs)%nat in
      {| this := p';
         heap := set_elems (place p' spacing cs mainPos els) (heap w) |}
  end.

(** *** The other public methods *)

Definition set_children (l : list eid) (w : World) : World :=
  {| this := this w; heap := set_array (_children (this w)) l (heap w) |}.

Definition set_this (p : t) (w : World) : World :=
  {| this := p; heap := heap w |}.

(** [this._children.push(element); super.add(element); this.layout()] *)
Definition addChild (element : eid) (w : World) : World :=
  layout (set_children (children w ++ [element]) w).

(** [Array.prototype.indexOf] on object identities; [None] stands for [-1]. *)
Fixpoint indexOf (element : eid) (l : list eid) : option nat :=
  match l with
  | [] => None
  | e :: rest =>
      if Nat.eqb e element then Some O
      else match indexOf element rest with
           | Some i => Some (S i)
           | None => None
           end
  end.

(** [l.splice(index, 1)] *)
Definition splice1 (index : nat) (l : list eid) : list eid :=
  firstn index l ++ skipn (S index) l.

Definition removeChild (element : eid) (w : World) : World :=
  match indexOf element (children w) with
  | Some index => layout (set_children (splice1 index (children w)) w)
  | None => w
  end.

(** [this._children = []] binds the field to a new array. *)
Definition clearChildren (w : World) : World :=
  let '(arr, h) := alloc [] (heap w) in
  let p := this w in
  layout
    {| this :=
         {| _width := _width p; _height := _height p; background := background p;
            _children := arr; _padding := _padding p; _gap := _gap p;
            _direction := _direction p; _align := _align p;
            _justify := _justify p; _autoSize := _autoSize p |};
       heap := h |}.

(** [return [...this._children]]: the result is the location of a new array. *)
Definition getChildren (w : World) : loc * World :=
  let '(arr, h) := alloc (children w) (heap w) in
  (arr, {| this := this w; heap := h |}).

Definition setDirection (direction : LayoutDirection) (w : World) : World :=
  let p := this w in
  layout (set_this
    {| _width := _width p; _height := _height p; background := background p;
       _children := _children p; _padding := _padding p; _gap := _gap p;
       _direction := direction; _align := _align p;
       _justify := _justify p; _autoSize := _autoSize p |} w).

Definition setAlign (align : LayoutAlign) (w : World) : World :=
  let p := this w in
  layout (set_this
    {| _width := _width p; _height := _height p; background := background p;
       _children := _children p; _padding := _padding p; _gap := _gap p;
       _direction := _direction p; _align := align;
       _justify := _justify p; _autoSize := _autoSize p |} w).

Definition setJustify (justify : LayoutJustify) (w : World) : World :=
  let p := this w in
  layout (set_this
    {| _width := _width p; _height := _height p; background := background p;
       _children := _children p; _padding := _padding p; _gap := _gap p;
       _direction := _direction p; _align := _align p;
       _justify := justify; _autoSize := _autoSize p |} w).

Definition setGap (gap : num) (w : World) : World :=
  let p := this w in
  layout (set_this
    {| _width := _width p; _height := _height p; background := background p;
       _children := _children p; _padding := _padding p; _gap := gap;
       _direction := _direction p; _align := _align p;
       _justify := _justify p; _autoSize := _autoSize p |} w).

Definition with_padding (quad : num * num * num * num) (p : t) : t :=
  {| _width := _width p; _height := _height p; background := background p;
     _children := _children p; _padding := quad;
     _gap := _gap p; _direction := _direction p; _align := _align p;
     _justify := _justify p; _autoSize := _autoSize p |}.

Definition setPadding (padding : num + num * num * num * num) (w : World) : World :=
  layout (set_this (with_padding (resolve_padding padding) (this w)) w).

Definition map_background (f : UIBox.t num -> UIBox.t num) (p : t) : t :=
  with_size (_width p) (_height p)
    (match background p with Some b => Some (f b) | None => None end) p.

Definition setBackgroundColor (color : num) (w : World) : World :=
  set_this (map_background (UIBox.setColor color) (this w)) w.

Definition setBorder (width color : num) (w : World) : World :=
  set_this (map_background (UIBox.setBorder width color) (this w)) w.

Definition setSize (width height : num) (w : World) : World :=
  layout (set_this (resize width height (this w)) w).

(** A call on the panel's public interface, or a step of the surrounding
    program, which may change the heap (resize a child, fill an array it
    obtained) but has no access to the panel's private fields. *)
Inductive call : Type :=
  | AddChild (element : eid)
  | RemoveChild (element : eid)
  | ClearChildren
  | GetChildren
  | Layout
  | SetDirection (direction : LayoutDirection)
  | SetAlign (align : LayoutAlign)
  | SetJustify (justify : LayoutJustify)
  | SetGap (gap : num)
  | SetPadding (padding : num + num * num * num * num)
  | SetBackgroundColor (color : num)
  | SetBorder (width color : num)
  | SetSize (width height : num)
  | Elsewhere (f : Heap -> Heap).

Definition run (c : call) (w : World) : World :=
  match c with
  | AddChild e => addChild e w
  | RemoveChild e => removeChild e w
  | ClearChildren => clearChildren w
  | GetChildren => snd (getChildren w)
  | Layout => layout w
  | SetDirection d => setDirection d w
  | SetAlign a => setAlign a w
  | SetJustify j => setJustify j w
  | SetGap g => setGap g w
  | SetPadding q => setPadding q w
  | SetBackgroundColor c => setBackgroundColor c w
  | SetBorder bw bc => setBorder bw bc w
  | SetSize sw sh => setSize sw sh w
  | Elsewhere f => {| this := this w; heap := f (heap w) |}
  end.

Definition run_all (cs : list call) (w : World) : World :=
  fold_left (fun w' c => run c w') cs w.

(** The background visual, when there is one, has the panel's size. *)
Definition background_in_sync (p : t) : Prop :=
  match background p with
  | Some b => UIBox._width b = _width p /\ UIBox._height b = _height p
  | None => True
  end.

End Defs.
Arguments t num : clear implicits.
Arguments Heap num : clear implicits.
Arguments World num : clear implicits.
End UIPanel.

(** ** Concrete scenes *)

Section Scenes.
Context {num : Type} {N : Number num}.
Local Open Scope js_scope.

(** A freshly created element: the given size, position at the origin. *)
Definition element (width height : num) : UIElement.t num :=
  {| UIElement._width := width; UIElement._height := height;
     UIElement.position := {| x := 0; y := 0; z := 0 |} |}.

(** A heap whose elements [1, 2, 3, ...] have the listed sizes. *)
Definition heap_of (sizes : list (num * num)) : UIPanel.Heap num :=
  {| UIPanel.elems := fun i =>
       match i with
       | O => element 0 0
       | S j => let '(w, h) := nth j sizes (0, 0) in element w h
       end;
     UIPanel.arrays := fun _ => [];
     UIPanel.next_loc := O |}.

Definition config (width height : num) (padding : num * num * num * num) (gap : num)
  (direction : LayoutDirection) (align : LayoutAlign) (justify : LayoutJustify)
  (autoSize : bool) : UIPanelConfig.t num :=
  {| UIPanelConfig.width := Some width;
     UIPanelConfig.height := Some height;
     UIPanelConfig.padding := Some (inr padding);
     UIPanelConfig.gap := Some gap;
     UIPanelConfig.direction := Some direction;
     UIPanelConfig.align := Some align;
     UIPanelConfig.justify := Some justify;
     UIPanelConfig.backgroundColor := Some 0;
     UIPanelConfig.backgroundOpacity := None;
     UIPanelConfig.borderRadius := None;
     UIPanelConfig.borderWidth := None;
     UIPanelConfig.borderColor := None;
     UIPanelConfig.autoSize := Some autoSize |}.

(** [new UIPanel(cfg)] followed by [addChild] of elements [1 .. n]. *)
Definition scene (cfg : UIPanelConfig.t num) (sizes : list (num * num)) : UIPanel.World num :=
  UIPanel.run_all (map UIPanel.AddChild (seq 1 (length sizes)))
    (UIPanel.new cfg (heap_of sizes)).

Definition position_of (w : UIPanel.World num) (child : eid) : num * num * num :=
  let v := UIElement.position (UIPanel.elems (UIPanel.heap w) child) in
  (x v, y v, z v).

Definition size_of (w : UIPanel.World num) : num * num :=
  (UIPanel._width (UIPanel.this w), UIPanel._height (UIPanel.this w)).

End Scenes.

Section FloatScenes.
Local Open Scope float_scope.

(** Property 2 of the specification: one child of size (1,1) in a
    horizontal 4 x 2 panel, start/start, no padding, no gap. *)
Definition single_child_scene : UIPanel.World float :=
  scene (config 4 2 (0, 0, 0, 0) 0 horizontal align_start justify_start false)
        [(1, 1)].

(** A panel with [autoSize] and a background, and no child yet. *)
Definition empty_scene : UIPanel.World float :=
  scene (config 4 2 (1, 1, 1, 1) 0.5 vertical align_end justify_space_around true) [].

(** A row with [autoSize] and [justify = center], created 10 x 1, before
    and after its only child (2 x 1) is added. *)
Definition autosize_center_config : UIPanelConfig.t float :=
  config 10 1 (0, 0, 0, 0) 0 horizontal align_center justify_center true.

Definition autosize_center_before : UIPanel.World float :=
  UIPanel.new autosize_center_config (heap_of [(2, 1)]).

Definition autosize_center_scene : UIPanel.World float :=
  UIPanel.addChild 1%nat autosize_center_before.

(** Property 3: three children of main size 1 in a row of content extent
    10, [justify = space-between]; the configured gap is 0.25. *)
Definition space_between_scene : UIPanel.World float :=
  scene (config 10 2 (0, 0, 0, 0) 0.25 horizontal align_center justify_space_between false)
        [(1, 1); (1, 1); (1, 1)].

(** The same three children added, one [addChild] after the other, to a
    row with [autoSize] and [justify = space-between], created 10 x 1. *)
Definition autosize_space_between_config : UIPanelConfig.t float :=
  config 10 1 (0, 0, 0, 0) 0 horizontal align_center justify_space_between true.

Definition autosize_space_between_scene : UIPanel.World float :=
  scene autosize_space_between_config [(1, 1); (1, 1); (1, 1)].

(** Property 4: a column with [autoSize], children of heights 1 and 2
    (widths 3 and 5), gap 0.5, no padding. *)
Definition autosize_column_scene : UIPanel.World float :=
  scene (config 10 10 (0, 0, 0, 0) 0.5 vertical align_center justify_start true)
        [(3, 1); (5, 2)].

(** Property 5: two children of cross sizes 1 and 3 in a padded row. *)
Definition centered_scene : UIPanel.World float :=
  scene (config 4 4 (0.5, 0, 0.25, 0) 0 horizontal align_center justify_start false)
        [(1, 1); (1, 3)].

(** Property 6: one child in a row, respectively a column, with the given
    top and left padding. *)
Definition padded_row (top left : float) : UIPanel.World float :=
  scene (config 4 2 (top, 0, 0, left) 0 horizontal align_center justify_start false)
        [(1, 1)].

Definition padded_column (top left : float) : UIPanel.World float :=
  scene (config 2 4 (top, 0, 0, left) 0 vertical align_center justify_start false)
        [(1, 1)].

(** One child under [justify = space-between]. *)
Definition single_child_space_between_scene : UIPanel.World float :=
  scene (config 4 2 (0, 0, 0, 0) 0 horizontal align_start justify_space_between false)
        [(1, 1)].

End FloatScenes.

Section ExactScenes.
Local Open Scope Qc_scope.

Definition exact (n : Z) (d : positive) : Qc := Q2Qc (n # d).

Definition autosize_column_scene_exact : UIPanel.World Qc :=
  scene (config (exact 10 1) (exact 10 1) (0, 0, 0, 0) (exact 1 2)
           vertical align_center justify_start true)
        [(exact 3 1, 1); (exact 5 1, exact 2 1)].

End ExactScenes.

(** ** Reading a laid-out scene *)

Section Geometry.
Context {num : Type} {N : Number num}.
Local Open Scope js_scope.

(** The coordinate of an element along the main and the cross axis. *)
Definition main_coordinate (d : LayoutDirection) (e : UIElement.t num) : num :=
  match d with
  | horizontal => x (UIElement.position e)
  | vertical => y (UIElement.position e)
  end.

Definition cross_coordinate (d : LayoutDirection) (e : UIElement.t num) : num :=
  match d with
  | horizontal => y (UIElement.position e)
  | vertical => x (UIElement.position e)
  end.

(** An element is centred on its position.  Along the main axis its
    leading edge is the one met first: the left edge in a row, the top edge
    in a column (the column runs towards decreasing Y). *)
Definition leading_edge (d : LayoutDirection) (e : UIElement.t num) : num :=
  match d with
  | horizontal => x (UIElement.position e) - UIElement.width e / 2
  | vertical => y (UIElement.position e) + UIElement.height e / 2
  end.

Definition trailing_edge (d : LayoutDirection) (e : UIElement.t num) : num :=
  match d with
  | horizontal => x (UIElement.position e) + UIElement.width e / 2
  | vertical => y (UIElement.position e) - UIElement.height e / 2
  end.

(** The free space between an element and the one that follows it. *)
Definition spacing_between (d : LayoutDirection) (a b : UIElement.t num) : num :=
  match d with
  | horizontal => leading_edge d b - trailing_edge d a
  | vertical => trailing_edge d a - leading_edge d b
  end.

(** Sum of the children's main sizes, as a plain recursive sum. *)
Fixpoint sumOfChildMainSizes (d : LayoutDirection) (els : eid -> UIElement.t num)
  (cs : list eid) : num :=
  match cs with
  | [] => 0
  | c :: rest => UIPanel.childMainSize d (els c) + sumOfChildMainSizes d els rest
  end.

Definition elems_after (w : UIPanel.World num) : eid -> UIElement.t num :=
  UIPanel.elems (UIPanel.heap w).

(** Two heaps that give every element the same size. *)
Definition same_sizes (els els' : eid -> UIElement.t num) : Prop :=
  forall c, UIElement._width (els c) = UIElement._width (els' c) /\
            UIElement._height (els c) = UIElement._height (els' c).

End Geometry.

(** [m] is the largest number of the list [l]. *)
Definition is_maximum (m : Qc) (l : list Qc) : Prop :=
  In m l /\ forall a, In a l -> (a <= m)%Qc.

(** ** The child list seen from outside *)

(** A list without the first occurrence of [e]. *)
Fixpoint remove_first (e : eid) (l : list eid) : list eid :=
  match l with
  | [] => []
  | a :: rest => if Nat.eqb a e then rest else a :: remove_first e rest
  end.

Section ChildList.
Context {num : Type} {N : Number num}.
Local Open Scope js_scope.

(** What a call does to the sequence of children, as a list function. *)
Definition child_list_after (c : @UIPanel.call num) (l : list eid) : list eid :=
  match c with
  | UIPanel.AddChild e => l ++ [e]
  | UIPanel.RemoveChild e => remove_first e l
  | UIPanel.ClearChildren => []
  | _ => l
  end.

(** The panel's child array has been allocated. *)
Definition array_live (w : UIPanel.World num) : Prop :=
  (UIPanel._children (UIPanel.this w) < UIPanel.next_loc (UIPanel.heap w))%nat.

(** A step of the surrounding program that leaves all arrays alone (it
    may still resize or move elements). *)
Definition keeps_arrays (c : @UIPanel.call num) : Prop :=
  match c with
  | UIPanel.Elsewhere f =>
      forall h, UIPanel.arrays (f h) = UIPanel.arrays h /\
                UIPanel.next_loc (f h) = UIPanel.next_loc h
  | _ => True
  end.

Definition is_setSize (c : @UIPanel.call num) : bool :=
  match c with UIPanel.SetSize _ _ => true | _ => false end.

(** [start] moved by [delta] in the direction in which children follow
    each other: towards +X in a row, towards -Y in a column. *)
Definition along (d : LayoutDirection) (start delta : num) : num :=
  match d with
  | horizontal => start + delta
  | vertical => start - delta
  end.

(** The value of [mainPos] after the positioning loop has gone through
    the children [cs]. *)
Definition advance_all (p : UIPanel.t num) (spacing : num)
  (els : eid -> UIElement.t num) (cs : list eid) (mainPos : num) : num :=
  fold_left (fun m c => UIPanel.advance p spacing m (els c)) cs mainPos.

(** The edges of an element across the main axis: the lower edge in a
    row, the left edge in a column, and the opposite one. *)
Definition cross_low_edge (d : LayoutDirection) (e : UIElement.t num) : num :=
  match d with
  | horizontal => y (UIElement.position e) - UIElement.height e / 2
  | vertical => x (UIElement.position e) - UIElement.width e / 2
  end.

Definition cross_high_edge (d : LayoutDirection) (e : UIElement.t num) : num :=
  match d with
  | horizontal => y (UIElement.position e) + UIElement.height e / 2
  | vertical => x (UIElement.position e) + UIElement.width e / 2
  end.

(** The content box of a panel across the main axis. *)
Definition content_cross_low (p : UIPanel.t num) : num :=
  match UIPanel._direction p with
  | horizontal => - UIPanel._height p / 2 + UIPanel.paddingBottom p
  | vertical => - UIPanel._width p / 2 + UIPanel.paddingLeft p
  end.

Definition content_cross_high (p : UIPanel.t num) : num :=
  match UIPanel._direction p with
  | horizontal => UIPanel._height p / 2 - UIPanel.paddingTop p
  | vertical => UIPanel._width p / 2 - UIPanel.paddingRight p
  end.

(** The far end of the content box along the main axis. *)
Definition content_main_end (p : UIPanel.t num) : num :=
  match UIPanel._direction p with
  | horizontal => UIPanel._width p / 2 - UIPanel.paddingRight p
  | vertical => - UIPanel._height p / 2 + UIPanel.paddingBottom p
  end.

End ChildList.

(** ** UIElement.ts: [getWorldBounds] *)

Module Box3.
Record t (num : Type) : Type := { min : Vector3 num; max : Vector3 num }.
End Box3.

Section Bounds.
Context {num : Type} {N : Number num}.
Local Open Scope js_scope.

(** [worldPos] is what [getWorldPosition] of the scene graph returns;
    [_anchor] is the element's anchor, [(0.5, 0.5)] unless [setAnchor] was
    called. *)
Definition getWorldBounds (e : UIElement.t num) (_anchor : num * num)
  (worldPos : Vector3 num) : Box3.t num :=
  let offsetX := - UIElement._width e * fst _anchor in
  let offsetY := - UIElement._height e * snd _anchor in
  {| Box3.min := {| x := x worldPos + offsetX;
                    y := y worldPos + offsetY;
                    z := z worldPos |};
     Box3.max := {| x := x worldPos + offsetX + UIElement._width e;
                    y := y worldPos + offsetY + UIElement._height e;
                    z := z worldPos |} |}.

End Bounds.

Section MoreExactScenes.
Local Open Scope Qc_scope.

(** Three children (1 x 1, 2 x 3/2, 1 x 1/2) in a 10 x 8 panel with
    padding [1/2, 1/4, 1/8, 1] and gap 1/4. *)
Definition exact_scene (direction : LayoutDirection) (align : LayoutAlign)
  (justify : LayoutJustify) (autoSize : bool) : UIPanel.World Qc :=
  scene (config (exact 10 1) (exact 8 1)
           (exact 1 2, exact 1 4, exact 1 8, 1) (exact 1 4)
           direction align justify autoSize)
        [(1, 1); (exact 2 1, exact 3 2); (1, exact 1 2)].

End MoreExactScenes.

(** ** UIProgressBar.ts *)

(** What the progress bar needs of numbers beyond [Number]. *)
Class BarNumber (num : Type) : Type := {
  Math_min : num -> num -> num;
  lit_0_001 : num;              (* the literal [0.001] *)
  lit_0_002 : num;              (* the literal [0.002] *)
  lit_0_1 : num                 (* the literal [0.1] *)
}.

(** [Math.min] on binary64: NaN is contagious and [-0] is smaller than [+0]. *)
Definition float_min (a b : float) : float :=
  if (PrimFloat.is_nan a || PrimFloat.is_nan b)%bool then PrimFloat.nan
  else if PrimFloat.ltb a b then a
  else if PrimFloat.ltb b a then b
  else if PrimFloat.get_sign a then a else b.

#[export] Instance BarNumber_float : BarNumber float := {|
  Math_min := float_min;
  lit_0_001 := 0x1.0624dd2f1a9fcp-10%float;   (* 0.001 rounded to binary64 *)
  lit_0_002 := 0x1.0624dd2f1a9fcp-9%float;    (* 0.002 rounded to binary64 *)
  lit_0_1 := 0x1.999999999999ap-4%float       (* 0.1 rounded to binary64 *)
|}.

Definition Qc_min (a b : Qc) : Qc :=
  match (a ?= b)%Qc with Gt => b | _ => a end.

#[export] Instance BarNumber_Qc : BarNumber Qc := {|
  Math_min := Qc_min;
  lit_0_001 := Q2Qc (1 # 1000);
  lit_0_002 := Q2Qc (2 # 1000);
  lit_0_1 := Q2Qc (1 # 10)
|}.

Module UIProgressBarConfig.
Record t (num : Type) : Type := {
  width : option num;
  height : option num;
  value : option num;            (* 0 ~ 1 *)
  backgroundColor : option num;
  fillColor : option num;
  borderRadius : option num;
  borderWidth : option num;
  borderColor : option num;
  direction : option LayoutDirection
}.
End UIProgressBarConfig.

Module UIProgressBar.
Section Defs.
Context {num : Type} {N : Number num} {B : BarNumber num}.
Local Open Scope js_scope.

(** [fill_position] is the position of the [fill] box. *)
Record t : Type := {
  _width : num;
  _height : num;
  _value : num;
  _direction : LayoutDirection;
  _fillColor : num;
  background : UIBox.t num;
  fill : UIBox.t num;
  fill_position : Vector3 num
}.

Definition with_fill (f : UIBox.t num) (pos : Vector3 num) (b : t) : t :=
  {| _width := _width b; _height := _height b; _value := _value b;
     _direction := _direction b; _fillColor := _fillColor b;
     background := background b; fill := f; fill_position := pos |}.

Definition updateFillSize (b : t) : t :=
  match _direction b with
  | horizontal =>
      let fillWidth := Math_max lit_0_001 (_width b * _value b) in
      with_fill (UIBox.setSize fillWidth (_height b) (fill b)) (fill_position b) b
  | vertical =>
      let fillHeight := Math_max lit_0_001 (_height b * _value b) in
      with_fill (UIBox.setSize (_width b) fillHeight (fill b)) (fill_position b) b
  end.

Definition updateFillPosition (b : t) : t :=
  match _direction b with
  | horizontal =>
      let offsetX := (- _width b + _width b * _value b) / 2 in
      with_fill (fill b)
        {| x := offsetX; y := y (fill_position b); z := z (fill_position b) |} b
  | vertical =>
      let offsetY := (- _height b + _height b * _value b) / 2 in
      with_fill (fill b)
        {| x := x (fill_position b); y := offsetY; z := z (fill_position b) |} b
  end.

(** [constructor(config)] *)
Definition new (config : UIProgressBarConfig.t num) : t :=
  let width := nullish (UIProgressBarConfig.width config) 1 in
  let height := nullish (UIProgressBarConfig.height config) lit_0_1 in
  let value := nullish (UIProgressBarConfig.value config) 1 in
  let direction := nullish (UIProgressBarConfig.direction config) horizontal in
  let fillColor := nullish (UIProgressBarConfig.fillColor config) (of_Z 0x00ff00) in
  let borderRadius := nullish (UIProgressBarConfig.borderRadius config) 0 in
  let borderWidth := nullish (UIProgressBarConfig.borderWidth config) 0 in
  let borderColor := nullish (UIProgressBarConfig.borderColor config) (of_Z 0xffffff) in
  let fillWidth := match direction with horizontal => width * value | vertical => width end in
  let fillHeight := match direction with vertical => height * value | horizontal => height end in
  updateFillPosition
    {| _width := width;
       _height := height;
       _value := value;
       _direction := direction;
       _fillColor := fillColor;
       background :=
         UIBox.new
           {| UIBoxConfig.width := Some width;
              UIBoxConfig.height := Some height;
              UIBoxConfig.color :=
                Some (nullish (UIProgressBarConfig.backgroundColor config) (of_Z 0x333333));
              UIBoxConfig.opacity := None;
              UIBoxConfig.borderRadius := Some borderRadius;
              UIBoxConfig.borderWidth := Some borderWidth;
              UIBoxConfig.borderColor := Some borderColor |};
       fill :=
         UIBox.new
           {| UIBoxConfig.width := Some (Math_max lit_0_001 (fillWidth - borderWidth * 2));
              UIBoxConfig.height := Some (Math_max lit_0_001 (fillHeight - borderWidth * 2));
              UIBoxConfig.color := Some fillColor;
              UIBoxConfig.opacity := None;
              UIBoxConfig.borderRadius := Some (Math_max 0 (borderRadius - borderWidth));
              UIBoxConfig.borderWidth := None;
              UIBoxConfig.borderColor := None |};
       fill_position := {| x := 0; y := 0; z := lit_0_002 |} |}.

Definition setValue (value : num) (b : t) : t :=
  updateFillPosition
    (updateFillSize
       {| _width := _width b; _height := _height b;
          _value := Math_max 0 (Math_min 1 value);
          _direction := _direction b; _fillColor := _fillColor b;
          background := background b; fill := fill b;
          fill_position := fill_position b |}).

Definition getValue (b : t) : num := _value b.

Definition setFillColor (color : num) (b : t) : t :=
  {| _width := _width b; _height := _height b; _value := _value b;
     _direction := _direction b; _fillColor := color;
     background := background b; fill := UIBox.setColor color (fill b);
     fill_position := fill_position b |}.

Definition setBackgroundColor (color : num) (b : t) : t :=
  {| _width := _width b; _height := _height b; _value := _value b;
     _direction := _direction b; _fillColor := _fillColor b;
     background := UIBox.setColor color (background b); fill := fill b;
     fill_position := fill_position b |}.

Definition setSize (width height : num) (b : t) : t :=
  updateFillPosition
    (updateFillSize
       {| _width := width; _height := height; _value := _value b;
          _direction := _direction b; _fillColor := _fillColor b;
          background := UIBox.setSize width height (background b); fill := fill b;
          fill_position := fill_position b |}).

(** The low end of the fill box along the bar: its left edge in a
    horizontal bar, its lower edge in a vertical one; and its extent. *)
Definition fill_low_edge (b : t) : num :=
  match _direction b with
  | horizontal => x (fill_position b) - UIBox._width (fill b) / 2
  | vertical => y (fill_position b) - UIBox._height (fill b) / 2
  end.

Definition fill_extent (b : t) : num :=
  match _direction b with
  | horizontal => UIBox._width (fill b)
  | vertical => UIBox._height (fill b)
  end.

Definition bar_low_edge (b : t) : num :=
  match _direction b with
  | horizontal => - _width b / 2
  | vertical => - _height b / 2
  end.

Definition bar_extent (b : t) : num :=
  match _direction b with
  | horizontal => _width b
  | vertical => _height b
  end.

End Defs.
Arguments t num : clear implicits.
End UIProgressBar.

Section BarScenes.
Local Open Scope Qc_scope.

(** A 4 x 1/2 bar with a border of 1/20, created at 3/4. *)
Definition exact_bar (direction : LayoutDirection) : UIProgressBar.t Qc :=
  UIProgressBar.new
    {| UIProgressBarConfig.width := Some (exact 4 1);
       UIProgressBarConfig.height := Some (exact 1 2);
       UIProgressBarConfig.value := Some (exact 3 4);
       UIProgressBarConfig.backgroundColor := None;
       UIProgressBarConfig.fillColor := None;
       UIProgressBarConfig.borderRadius := None;
       UIProgressBarConfig.borderWidth := Some (exact 1 20);
       UIProgressBarConfig.borderColor := None;
       UIProgressBarConfig.direction := Some direction |}.

End BarScenes.

Section FloatBarScenes.
Local Open Scope float_scope.


End FloatBarScenes.

(** * Properties *)

Section LayoutFacts.
Context {num : Type} {N : Number num}.
Local Open Scope js_scope.

Implicit Types (p : UIPanel.t num) (w : UIPanel.World num).
Implicit Types (els : eid -> UIElement.t num) (cs : list eid) (c : eid).

(** *** Heap cells *)

Lemma upd_same (A : Type) (h : nat -> A) i a : upd h i a i = a.
Proof. unfold upd. now rewrite Nat.eqb_refl. Qed.

Lemma upd_other (A : Type) (h : nat -> A) i j a : j <> i -> upd h i a j = h j.
Proof.
  intros Hne. unfold upd. destruct (Nat.eqb_spec j i); [contradiction|reflexivity].
Qed.

(** *** The early return *)

Lemma layout_nil w : UIPanel.children w = [] -> UIPanel.layout w = w.
Proof. intros Hnil. unfold UIPanel.layout. now rewrite Hnil. Qed.

(** *** The positioning loop *)

Lemma place_cons p spacing c rest mainPos els :
  UIPanel.place p spacing (c :: rest) mainPos els =
  UIPanel.place p spacing rest (UIPanel.advance p spacing mainPos (els c))
    (upd els c (UIElement.set_position (UIPanel.placement p mainPos (els c)) (els c))).
Proof.
  unfold UIPanel.advance, UIPanel.placement. simpl.
  destruct (UIPanel._direction p); reflexivity.
Qed.

(** Elements that are not children of the panel are left alone. *)
Lemma place_outside p spacing cs : forall mainPos els c,
  ~ In c cs -> UIPanel.place p spacing cs mainPos els c = els c.
Proof.
  induction cs as [|c0 rest IH]; intros mainPos els c Hnot; [reflexivity|].
  rewrite place_cons, IH.
  - apply upd_other. intros ->. apply Hnot. now left.
  - intros Hin. apply Hnot. now right.
Qed.

(** The loop writes positions only: every size is as before. *)
Lemma place_sizes p spacing cs : forall mainPos els c,
  UIElement._width (UIPanel.place p spacing cs mainPos els c) = UIElement._width (els c) /\
  UIElement._height (UIPanel.place p spacing cs mainPos els c) = UIElement._height (els c).
Proof.
  induction cs as [|c0 rest IH]; intros mainPos els c; [now split|].
  rewrite place_cons.
  destruct (IH (UIPanel.advance p spacing mainPos (els c0))
               (upd els c0 (UIElement.set_position
                  (UIPanel.placement p mainPos (els c0)) (els c0))) c) as [Hw Hh].
  rewrite Hw, Hh. unfold upd.
  destruct (Nat.eqb_spec c c0) as [->|_]; now split.
Qed.

(** The first child of a duplicate-free list keeps what the first
    iteration wrote. *)
Lemma place_head p spacing c rest mainPos els :
  ~ In c rest ->
  UIPanel.place p spacing (c :: rest) mainPos els c =
  UIElement.set_position (UIPanel.placement p mainPos (els c)) (els c).
Proof.
  intros Hnot. rewrite place_cons, place_outside by exact Hnot. apply upd_same.
Qed.

(** [placement] and [advance] look at the size only. *)
Lemma placement_sizes p mainPos (e1 e2 : UIElement.t num) :
  UIElement._width e1 = UIElement._width e2 ->
  UIElement._height e1 = UIElement._height e2 ->
  UIPanel.placement p mainPos e1 = UIPanel.placement p mainPos e2 /\
  (forall spacing, UIPanel.advance p spacing mainPos e1 = UIPanel.advance p spacing mainPos e2).
Proof.
  intros Hw Hh.
  unfold UIPanel.placement, UIPanel.advance, UIPanel.childMainSize,
    UIPanel.childCrossSize, UIElement.width, UIElement.height.
  rewrite Hw, Hh. now split.
Qed.

(** Two consecutive children of a duplicate-free list: there is a value
    [m] of [mainPos] at which the first was placed, and the second was
    placed at [m] advanced by the first. *)
Lemma place_consecutive p spacing : forall pre a b post mainPos els,
  NoDup (pre ++ a :: b :: post) ->
  exists m,
    UIElement.position (UIPanel.place p spacing (pre ++ a :: b :: post) mainPos els a)
      = UIPanel.placement p m (els a) /\
    UIElement.position (UIPanel.place p spacing (pre ++ a :: b :: post) mainPos els b)
      = UIPanel.placement p (UIPanel.advance p spacing m (els a)) (els b).
Proof.
  induction pre as [|c0 pre IH]; intros a b post mainPos els Hnd.
  - simpl app in *. exists mainPos.
    inversion Hnd as [|? ? Ha Hnd']; subst.
    inversion Hnd' as [|? ? Hb _]; subst.
    assert (Hab : b <> a) by (intros ->; apply Ha; now left).
    split.
    + rewrite place_head by exact Ha. reflexivity.
    + rewrite place_cons, place_head by exact Hb.
      rewrite upd_other by exact Hab. reflexivity.
  - simpl app in *. inversion Hnd as [|? ? Hc0 Hnd']; subst.
    rewrite place_cons.
    destruct (IH a b post (UIPanel.advance p spacing mainPos (els c0))
                (upd els c0 (UIElement.set_position
                   (UIPanel.placement p mainPos (els c0)) (els c0))) Hnd')
      as [m [Ha Hb]].
    exists m. rewrite Ha, Hb.
    assert (Hac : a <> c0).
    { intros ->. apply Hc0, in_or_app. right. now left. }
    assert (Hbc : b <> c0).
    { intros ->. apply Hc0, in_or_app. right. right. now left. }
    rewrite !upd_other by assumption. now split.
Qed.

(** Under [align = center] the cross position is the literal [0]. *)
Lemma place_center p spacing cs : forall mainPos els c,
  UIPanel._align p = align_center ->
  In c cs ->
  cross_coordinate (UIPanel._direction p) (UIPanel.place p spacing cs mainPos els c) = 0.
Proof.
  induction cs as [|c0 rest IH]; intros mainPos els c Hal Hin; [destruct Hin|].
  destruct (in_dec Nat.eq_dec c rest) as [Hrest|Hrest].
  - rewrite place_cons. now apply IH.
  - destruct Hin as [->|Hin]; [|contradiction].
    rewrite place_head by exact Hrest.
    unfold cross_coordinate, UIPanel.placement, UIPanel.crossPos.
    rewrite Hal. destruct (UIPanel._direction p); reflexivity.
Qed.

(** *** The measuring loop *)

Lemma measure_step_fold d els cs : forall acc,
  fold_left (UIPanel.measure_step d els) cs acc =
  (fold_left add (map (fun c => UIPanel.childMainSize d (els c)) cs) (fst acc),
   fold_left Math_max (map (fun c => UIPanel.childCrossSize d (els c)) cs) (snd acc)).
Proof.
  induction cs as [|c rest IH]; intros [t m]; [reflexivity|].
  simpl. rewrite IH. reflexivity.
Qed.

(** *** What [layout] does to the panel *)

Lemma layout_this w :
  UIPanel.children w <> [] ->
  UIPanel.this (UIPanel.layout w) =
  UIPanel.autoSize
    (UIPanel.totalMainSize (UIPanel.this w) (UIPanel.elems (UIPanel.heap w)) (UIPanel.children w))
    (UIPanel.maxCrossSize (UIPanel.this w) (UIPanel.elems (UIPanel.heap w)) (UIPanel.children w))
    (UIPanel.this w).
Proof.
  intros Hne. unfold UIPanel.layout.
  destruct (UIPanel.children w) as [|c rest]; [contradiction|].
  destruct (UIPanel.justify _ _ _ _ _ _). reflexivity.
Qed.

Lemma layout_elems w :
  UIPanel.children w <> [] ->
  exists mainPos spacing,
    UIPanel.justify (UIPanel.this w) (UIPanel.count (UIPanel.children w))
      (UIPanel.mainStart (UIPanel.this (UIPanel.layout w)))
      (UIPanel.mainSize (UIPanel.this w))
      (UIPanel.totalMainSize (UIPanel.this w) (UIPanel.elems (UIPanel.heap w))
         (UIPanel.children w))
      (1 <? length (UIPanel.children w))%nat = (mainPos, spacing) /\
    UIPanel.elems (UIPanel.heap (UIPanel.layout w)) =
    UIPanel.place (UIPanel.this (UIPanel.layout w)) spacing (UIPanel.children w) mainPos
      (UIPanel.elems (UIPanel.heap w)).
Proof.
  intros Hne. rewrite (layout_this w Hne). unfold UIPanel.layout.
  destruct (UIPanel.children w) as [|c rest] eqn:Hcs; [contradiction|].
  destruct (UIPanel.justify _ _ _ _ _ _) as [mainPos spacing].
  exists mainPos, spacing. split; reflexivity.
Qed.

Lemma autoSize_params total maxCross p :
  let p' := UIPanel.autoSize total maxCross p in
  UIPanel._children p' = UIPanel._children p /\
  UIPanel._padding p' = UIPanel._padding p /\
  UIPanel._gap p' = UIPanel._gap p /\
  UIPanel._direction p' = UIPanel._direction p /\
  UIPanel._align p' = UIPanel._align p /\
  UIPanel._justify p' = UIPanel._justify p /\
  UIPanel._autoSize p' = UIPanel._autoSize p.
Proof.
  unfold UIPanel.autoSize.
  destruct (UIPanel._autoSize p) eqn:Ha, (UIPanel._direction p) eqn:Hd; simpl;
    rewrite ?Ha, ?Hd; repeat split; reflexivity.
Qed.

(** [layout] never touches the arrays, and never the child list. *)
Lemma layout_arrays w :
  UIPanel.arrays (UIPanel.heap (UIPanel.layout w)) = UIPanel.arrays (UIPanel.heap w) /\
  UIPanel.next_loc (UIPanel.heap (UIPanel.layout w)) = UIPanel.next_loc (UIPanel.heap w) /\
  UIPanel._children (UIPanel.this (UIPanel.layout w)) = UIPanel._children (UIPanel.this w).
Proof.
  unfold UIPanel.layout.
  destruct (UIPanel.children w) as [|c rest]; [now repeat split|].
  destruct (UIPanel.justify _ _ _ _ _ _). simpl.
  repeat split. apply autoSize_params.
Qed.

Lemma justify_keeps_mainStart p n start size total more :
  UIPanel._justify p = justify_start \/ UIPanel._justify p = justify_space_between ->
  fst (UIPanel.justify p n start size total more) = start.
Proof.
  unfold UIPanel.justify. intros [-> | ->]; reflexivity.
Qed.

Lemma justify_space_between_spacing p (n start size total : num) :
  UIPanel._justify p = justify_space_between ->
  snd (UIPanel.justify p n start size total true) =
  (size - (total - UIPanel._gap p * (n - 1))) / (n - 1).
Proof. intros Hj. unfold UIPanel.justify. now rewrite Hj. Qed.

(** [layout] changes no element's size. *)
Lemma layout_sizes w c :
  UIElement._width (elems_after (UIPanel.layout w) c)
    = UIElement._width (UIPanel.elems (UIPanel.heap w) c) /\
  UIElement._height (elems_after (UIPanel.layout w) c)
    = UIElement._height (UIPanel.elems (UIPanel.heap w) c).
Proof.
  destruct (UIPanel.children w) as [|c0 rest] eqn:Hcs.
  - rewrite layout_nil by exact Hcs. now split.
  - unfold elems_after.
    destruct (layout_elems w) as [mainPos [spacing [_ ->]]]; [rewrite Hcs; discriminate|].
    apply place_sizes.
Qed.

(** With [autoSize] the panel takes the measured extents plus padding. *)
Lemma layout_autoSize_size w :
  UIPanel._autoSize (UIPanel.this w) = true ->
  UIPanel.children w <> [] ->
  let p := UIPanel.this w in
  let p' := UIPanel.this (UIPanel.layout w) in
  let total := UIPanel.totalMainSize p (UIPanel.elems (UIPanel.heap w)) (UIPanel.children w) in
  let maxCross := UIPanel.maxCrossSize p (UIPanel.elems (UIPanel.heap w)) (UIPanel.children w) in
  match UIPanel._direction p with
  | horizontal =>
      UIPanel._width p' = total + UIPanel.paddingLeft p + UIPanel.paddingRight p /\
      UIPanel._height p' = maxCross + UIPanel.paddingTop p + UIPanel.paddingBottom p
  | vertical =>
      UIPanel._height p' = total + UIPanel.paddingTop p + UIPanel.paddingBottom p /\
      UIPanel._width p' = maxCross + UIPanel.paddingLeft p + UIPanel.paddingRight p
  end.
Proof.
  intros Hauto Hne p p' total maxCross.
  subst p' total maxCross p. rewrite (layout_this w Hne).
  unfold UIPanel.autoSize. rewrite Hauto.
  destruct (UIPanel._direction (UIPanel.this w)); simpl; now split.
Qed.

(** The same, with the two accumulators of the measuring loop written as
    a running sum and a running maximum, both starting from [0]. *)
Lemma layout_autoSize_folds w :
  UIPanel._autoSize (UIPanel.this w) = true ->
  UIPanel.children w <> [] ->
  let p := UIPanel.this w in
  let p' := UIPanel.this (UIPanel.layout w) in
  let d := UIPanel._direction p in
  let els := UIPanel.elems (UIPanel.heap w) in
  let cs := UIPanel.children w in
  let main :=
    fold_left add (map (fun c => UIPanel.childMainSize d (els c)) cs) 0
    + UIPanel._gap p * (UIPanel.count cs - 1) in
  let cross := fold_left Math_max (map (fun c => UIPanel.childCrossSize d (els c)) cs) 0 in
  match d with
  | horizontal =>
      UIPanel._width p' = main + UIPanel.paddingLeft p + UIPanel.paddingRight p /\
      UIPanel._height p' = cross + UIPanel.paddingTop p + UIPanel.paddingBottom p
  | vertical =>
      UIPanel._height p' = main + UIPanel.paddingTop p + UIPanel.paddingBottom p /\
      UIPanel._width p' = cross + UIPanel.paddingLeft p + UIPanel.paddingRight p
  end.
Proof.
  intros Hauto Hne p p' d els cs main cross.
  pose proof (layout_autoSize_size w Hauto Hne) as H. cbv zeta in H.
  unfold UIPanel.totalMainSize, UIPanel.maxCrossSize, UIPanel.measure in H.
  rewrite measure_step_fold in H. exact H.
Qed.

(** Under [space-between] with more than one child the positioning loop
    starts at [mainStart] and runs with the recomputed spacing. *)
Lemma layout_space_between w :
  UIPanel._justify (UIPanel.this w) = justify_space_between ->
  (1 < length (UIPanel.children w))%nat ->
  let p := UIPanel.this w in
  let p' := UIPanel.this (UIPanel.layout w) in
  let els := UIPanel.elems (UIPanel.heap w) in
  let cs := UIPanel.children w in
  let n := UIPanel.count cs in
  elems_after (UIPanel.layout w) =
  UIPanel.place p'
    ((UIPanel.mainSize p - (UIPanel.totalMainSize p els cs - UIPanel._gap p * (n - 1)))
     / (n - 1))
    cs (UIPanel.mainStart p') els.
Proof.
  intros Hj Hlen p p' els cs n.
  assert (Hne : UIPanel.children w <> []).
  { intros E. rewrite E in Hlen. simpl in Hlen. lia. }
  unfold elems_after.
  destruct (layout_elems w Hne) as [mainPos [spacing [Hjust ->]]].
  apply Nat.ltb_lt in Hlen. rewrite Hlen in Hjust.
  pose proof (f_equal fst Hjust) as Hm. pose proof (f_equal snd Hjust) as Hs.
  cbn [fst snd] in Hm, Hs.
  rewrite justify_keeps_mainStart in Hm by now right.
  rewrite justify_space_between_spacing in Hs by exact Hj.
  subst mainPos spacing. reflexivity.
Qed.

(** *** The background visual *)

Lemma resize_in_sync width height p :
  UIPanel.background_in_sync (UIPanel.resize width height p).
Proof.
  unfold UIPanel.background_in_sync, UIPanel.resize. simpl.
  destruct (UIPanel.background p); [now split|exact I].
Qed.

Lemma autoSize_in_sync total maxCross p :
  UIPanel.background_in_sync p ->
  UIPanel.background_in_sync (UIPanel.autoSize total maxCross p).
Proof.
  intros Hp. unfold UIPanel.autoSize.
  destruct (UIPanel._autoSize p); [|exact Hp].
  destruct (UIPanel._direction p); apply resize_in_sync.
Qed.

Lemma layout_in_sync w :
  UIPanel.background_in_sync (UIPanel.this w) ->
  UIPanel.background_in_sync (UIPanel.this (UIPanel.layout w)).
Proof.
  intros Hw. destruct (UIPanel.children w) as [|c rest] eqn:Hcs.
  - now rewrite layout_nil.
  - rewrite layout_this by (rewrite Hcs; discriminate).
    now apply autoSize_in_sync.
Qed.

Lemma map_background_in_sync (f : UIBox.t num -> UIBox.t num) p :
  (forall b, UIBox._width (f b) = UIBox._width b /\
             UIBox._height (f b) = UIBox._height b) ->
  UIPanel.background_in_sync p ->
  UIPanel.background_in_sync (UIPanel.map_background f p).
Proof.
  intros Hf. unfold UIPanel.background_in_sync, UIPanel.map_background. simpl.
  destruct (UIPanel.background p) as [b|]; [|trivial].
  destruct (Hf b) as [-> ->]. trivial.
Qed.

Lemma new_in_sync (config : UIPanelConfig.t num) (h : UIPanel.Heap num) :
  UIPanel.background_in_sync (UIPanel.this (UIPanel.new config h)).
Proof.
  unfold UIPanel.new, UIPanel.background_in_sync. simpl.
  match goal with |- context [if ?b then _ else _] => destruct b end;
    simpl; [now split|exact I].
Qed.

Lemma run_in_sync (c : UIPanel.call) w :
  UIPanel.background_in_sync (UIPanel.this w) ->
  UIPanel.background_in_sync (UIPanel.this (UIPanel.run c w)).
Proof.
  intros Hw. destruct c as [e|e| | | | | | | | | | | |f]; simpl.
  - apply layout_in_sync, Hw.
  - unfold UIPanel.removeChild.
    destruct (UIPanel.indexOf e (UIPanel.children w)); [|exact Hw].
    apply layout_in_sync, Hw.
  - apply layout_in_sync, Hw.
  - exact Hw.
  - apply layout_in_sync, Hw.
  - apply layout_in_sync, Hw.
  - apply layout_in_sync, Hw.
  - apply layout_in_sync, Hw.
  - apply layout_in_sync, Hw.
  - apply layout_in_sync, Hw.
  - apply map_background_in_sync; [intros b; now split|exact Hw].
  - apply map_background_in_sync; [intros b; now split|exact Hw].
  - apply layout_in_sync. simpl. apply resize_in_sync.
  - exact Hw.
Qed.

(** C5: from the constructor on, through any sequence of public calls
    ([addChild], [removeChild], [clearChildren], [getChildren], [layout],
    the parameter setters, [setBackgroundColor], [setBorder], [setSize])
    interleaved with arbitrary heap changes made elsewhere, a panel that
    has a background visual has it at the panel's own width and height. *)
Theorem background_always_in_sync
  (config : UIPanelConfig.t num) (h : UIPanel.Heap num) (calls : list UIPanel.call) :
  UIPanel.background_in_sync (UIPanel.this (UIPanel.run_all calls (UIPanel.new config h))).
Proof.
  unfold UIPanel.run_all.
  generalize (new_in_sync config h).
  generalize (UIPanel.new config h) as w.
  induction calls as [|c calls IH]; intros w Hw; simpl; [exact Hw|].
  apply IH, run_in_sync, Hw.
Qed.

(** *** Cross-axis centring *)

(** C6: under [align = center] every child of the panel has cross-axis
    coordinate [0] after [layout], whatever its size, the padding and the
    panel's size; hence any two children have the same cross coordinate. *)
Theorem align_center_cross_zero w c c' :
  UIPanel._align (UIPanel.this w) = align_center ->
  In c (UIPanel.children w) ->
  In c' (UIPanel.children w) ->
  let d := UIPanel._direction (UIPanel.this w) in
  cross_coordinate d (elems_after (UIPanel.layout w) c) = 0 /\
  cross_coordinate d (elems_after (UIPanel.layout w) c')
    = cross_coordinate d (elems_after (UIPanel.layout w) c).
Proof.
  intros Hal Hc Hc' d.
  assert (Hne : UIPanel.children w <> []) by (intros E; rewrite E in Hc; destruct Hc).
  assert (Hzero : forall k, In k (UIPanel.children w) ->
            cross_coordinate d (elems_after (UIPanel.layout w) k) = 0).
  { intros k Hk. unfold elems_after.
    destruct (layout_elems w Hne) as [mainPos [spacing [_ ->]]].
    pose proof (autoSize_params
      (UIPanel.totalMainSize (UIPanel.this w) (UIPanel.elems (UIPanel.heap w)) (UIPanel.children w))
      (UIPanel.maxCrossSize (UIPanel.this w) (UIPanel.elems (UIPanel.heap w)) (UIPanel.children w))
      (UIPanel.this w)) as Hpar.
    rewrite <- (layout_this w Hne) in Hpar.
    destruct Hpar as (_ & _ & _ & Hd & Ha & _).
    unfold d. rewrite <- Hd. apply place_center; [now rewrite Ha|exact Hk]. }
  split; [now apply Hzero|]. now rewrite !Hzero.
Qed.

(** *** Where the first child goes *)

Lemma first_child_at_mainStart w c rest :
  UIPanel.children w = c :: rest ->
  ~ In c rest ->
  UIPanel._justify (UIPanel.this w) = justify_start \/
  UIPanel._justify (UIPanel.this w) = justify_space_between ->
  UIElement.position (elems_after (UIPanel.layout w) c) =
  UIPanel.placement (UIPanel.this (UIPanel.layout w))
    (UIPanel.mainStart (UIPanel.this (UIPanel.layout w)))
    (UIPanel.elems (UIPanel.heap w) c).
Proof.
  intros Hcs Hnot Hj.
  assert (Hne : UIPanel.children w <> []) by (rewrite Hcs; discriminate).
  unfold elems_after.
  destruct (layout_elems w Hne) as [mainPos [spacing [Hjust ->]]].
  apply (f_equal fst) in Hjust. rewrite justify_keeps_mainStart in Hjust by exact Hj.
  simpl in Hjust. subst mainPos.
  rewrite Hcs, place_head by exact Hnot. reflexivity.
Qed.

(** The panel after [layout] has the direction and the padding it had. *)
Lemma layout_params w :
  UIPanel._direction (UIPanel.this (UIPanel.layout w)) = UIPanel._direction (UIPanel.this w) /\
  UIPanel._padding (UIPanel.this (UIPanel.layout w)) = UIPanel._padding (UIPanel.this w) /\
  UIPanel._justify (UIPanel.this (UIPanel.layout w)) = UIPanel._justify (UIPanel.this w) /\
  UIPanel._gap (UIPanel.this (UIPanel.layout w)) = UIPanel._gap (UIPanel.this w).
Proof.
  destruct (UIPanel.children w) as [|c rest] eqn:Hcs.
  - rewrite layout_nil by exact Hcs. now repeat split.
  - rewrite layout_this by (rewrite Hcs; discriminate).
    match goal with |- context [UIPanel.autoSize ?a ?b ?q] =>
      destruct (autoSize_params a b q) as (_ & Hp & Hg & Hd & _ & Hj & _) end.
    now repeat split.
Qed.

Lemma single_child_main_coordinate w c :
  UIPanel.children w = [c] ->
  UIPanel._justify (UIPanel.this w) = justify_start ->
  let p' := UIPanel.this (UIPanel.layout w) in
  let e := UIPanel.elems (UIPanel.heap w) c in
  (UIPanel._direction (UIPanel.this w) = horizontal ->
     x (UIElement.position (elems_after (UIPanel.layout w) c)) =
     (- UIPanel._width p' / 2 + UIPanel.paddingLeft p') + UIElement.width e / 2) /\
  (UIPanel._direction (UIPanel.this w) = vertical ->
     y (UIElement.position (elems_after (UIPanel.layout w) c)) =
     (UIPanel._height p' / 2 - UIPanel.paddingTop p') - UIElement.height e / 2).
Proof.
  intros Hcs Hj p' e.
  pose proof (first_child_at_mainStart w Hcs (fun F : In c [] => F) (or_introl Hj)) as Hpos.
  destruct (layout_params w) as (Hd & _).
  fold p' in Hpos, Hd. fold e in Hpos.
  split; intros Hdir; rewrite Hpos;
    unfold UIPanel.placement, UIPanel.mainStart, UIPanel.childMainSize;
    rewrite Hd, Hdir; reflexivity.
Qed.

(** In a column the left padding plays no part in [mainStart]. *)
Lemma mainStart_vertical_ignores_left p (top right bottom left left' : num) :
  UIPanel._direction p = vertical ->
  UIPanel.mainStart (UIPanel.with_padding (top, right, bottom, left) p) =
  UIPanel.mainStart (UIPanel.with_padding (top, right, bottom, left') p).
Proof.
  intros Hd. unfold UIPanel.mainStart. simpl. rewrite Hd. reflexivity.
Qed.

(** *** Running [layout] again *)

Lemma measure_same_sizes d els els' cs :
  same_sizes els els' -> UIPanel.measure d els cs = UIPanel.measure d els' cs.
Proof.
  intros Hs. unfold UIPanel.measure. generalize (0, 0) as acc.
  induction cs as [|c rest IH]; intros acc; [reflexivity|].
  simpl. rewrite <- IH. f_equal.
  unfold UIPanel.measure_step, UIPanel.childMainSize, UIPanel.childCrossSize,
    UIElement.width, UIElement.height.
  destruct (Hs c) as [-> ->]. reflexivity.
Qed.

(** On the children, the result of the positioning loop depends on the
    sizes found in the heap only, not on the positions found there. *)
Lemma place_same_sizes p spacing cs : forall mainPos els els' c,
  same_sizes els els' ->
  In c cs ->
  UIPanel.place p spacing cs mainPos els c = UIPanel.place p spacing cs mainPos els' c.
Proof.
  induction cs as [|c0 rest IH]; intros mainPos els els' c Hs Hin; [destruct Hin|].
  rewrite !place_cons.
  destruct (Hs c0) as [Hw Hh].
  destruct (placement_sizes p mainPos (els c0) (els' c0) Hw Hh) as [Hpl Hadv].
  rewrite Hpl, Hadv.
  destruct (in_dec Nat.eq_dec c rest) as [Hrest|Hrest].
  - apply IH; [|exact Hrest].
    intros k. unfold upd. destruct (Nat.eqb k c0); [simpl; now split|apply Hs].
  - destruct Hin as [->|Hin]; [|contradiction].
    rewrite !place_outside by exact Hrest. rewrite !upd_same.
    unfold UIElement.set_position. now rewrite Hw, Hh.
Qed.

Lemma autoSize_again total maxCross p :
  UIPanel.autoSize total maxCross (UIPanel.autoSize total maxCross p)
  = UIPanel.autoSize total maxCross p.
Proof.
  unfold UIPanel.autoSize.
  destruct (UIPanel._autoSize p) eqn:Ha; [|now rewrite Ha].
  destruct (UIPanel._direction p) eqn:Hd; simpl; rewrite Ha, Hd;
    unfold UIPanel.resize; simpl; destruct (UIPanel.background p); reflexivity.
Qed.

(** A second [layout] changes nothing when the content extent along the
    main axis is the same after the first [layout] as before it; so it is,
    in particular, without [autoSize]. *)
Lemma layout_again_when_extent_kept w :
  UIPanel.mainSize (UIPanel.this (UIPanel.layout w)) = UIPanel.mainSize (UIPanel.this w) ->
  UIPanel.this (UIPanel.layout (UIPanel.layout w)) = UIPanel.this (UIPanel.layout w) /\
  forall c, elems_after (UIPanel.layout (UIPanel.layout w)) c
            = elems_after (UIPanel.layout w) c.
Proof.
  intros Hext.
  destruct (UIPanel.children w) as [|c0 rest] eqn:Hcs.
  { rewrite !layout_nil by (rewrite ?layout_nil; exact Hcs). now split. }
  assert (Hne : UIPanel.children w <> []) by (rewrite Hcs; discriminate).
  set (w1 := UIPanel.layout w) in *.
  assert (Hcs1 : UIPanel.children w1 = UIPanel.children w).
  { unfold UIPanel.children, w1. destruct (layout_arrays w) as (-> & _ & ->). reflexivity. }
  assert (Hne1 : UIPanel.children w1 <> []) by (rewrite Hcs1; exact Hne).
  assert (Hs : same_sizes (UIPanel.elems (UIPanel.heap w1)) (UIPanel.elems (UIPanel.heap w))).
  { intros c. apply (layout_sizes w c). }
  destruct (layout_params w) as (Hd & Hpad & Hj & Hg). fold w1 in Hd, Hpad, Hj, Hg.
  assert (Htot : UIPanel.totalMainSize (UIPanel.this w1) (UIPanel.elems (UIPanel.heap w1))
                   (UIPanel.children w1)
                 = UIPanel.totalMainSize (UIPanel.this w) (UIPanel.elems (UIPanel.heap w))
                   (UIPanel.children w)).
  { unfold UIPanel.totalMainSize.
    rewrite Hcs1, Hd, Hg, (measure_same_sizes _ _ Hs). reflexivity. }
  assert (Hmax : UIPanel.maxCrossSize (UIPanel.this w1) (UIPanel.elems (UIPanel.heap w1))
                   (UIPanel.children w1)
                 = UIPanel.maxCrossSize (UIPanel.this w) (UIPanel.elems (UIPanel.heap w))
                   (UIPanel.children w)).
  { unfold UIPanel.maxCrossSize.
    rewrite Hcs1, Hd, (measure_same_sizes _ _ Hs). reflexivity. }
  assert (Hthis : UIPanel.this (UIPanel.layout w1) = UIPanel.this w1).
  { rewrite (layout_this w1 Hne1), Htot, Hmax.
    unfold w1 at 1 2. rewrite (layout_this w Hne). apply autoSize_again. }
  split; [exact Hthis|]. intros c. unfold elems_after.
  destruct (layout_elems w1 Hne1) as [m1 [s1 [Hj1 ->]]].
  destruct (layout_elems w Hne) as [m0 [s0 [Hj0 Hel]]]. fold w1 in Hj0, Hel.
  rewrite Htot, Hthis, Hcs1, Hext in Hj1.
  assert (Hsame : (m1, s1) = (m0, s0)).
  { rewrite <- Hj1, <- Hj0. unfold UIPanel.justify. rewrite Hj, Hg. reflexivity. }
  injection Hsame as -> ->.
  rewrite Hthis, Hcs1.
  destruct (in_dec Nat.eq_dec c (UIPanel.children w)) as [Hin|Hout].
  - rewrite (place_same_sizes _ _ _ _ c Hs Hin). now rewrite Hel.
  - now rewrite place_outside.
Qed.

Lemma layout_again_without_autoSize w :
  UIPanel._autoSize (UIPanel.this w) = false ->
  UIPanel.this (UIPanel.layout (UIPanel.layout w)) = UIPanel.this (UIPanel.layout w) /\
  forall c, elems_after (UIPanel.layout (UIPanel.layout w)) c
            = elems_after (UIPanel.layout w) c.
Proof.
  intros Hauto. apply layout_again_when_extent_kept.
  destruct (UIPanel.children w) as [|c0 rest] eqn:Hcs.
  - now rewrite layout_nil.
  - rewrite layout_this by (rewrite Hcs; discriminate).
    unfold UIPanel.autoSize. now rewrite Hauto.
Qed.

(** *** Arrays handed out by [getChildren] *)

Lemma layout_depends w1 w2 :
  UIPanel.this w1 = UIPanel.this w2 ->
  UIPanel.children w1 = UIPanel.children w2 ->
  UIPanel.elems (UIPanel.heap w1) = UIPanel.elems (UIPanel.heap w2) ->
  UIPanel.this (UIPanel.layout w1) = UIPanel.this (UIPanel.layout w2) /\
  UIPanel.elems (UIPanel.heap (UIPanel.layout w1)) =
  UIPanel.elems (UIPanel.heap (UIPanel.layout w2)).
Proof.
  intros Ht Hc He. unfold UIPanel.layout. rewrite Hc, Ht, He.
  destruct (UIPanel.children w2) as [|c rest]; [now split|].
  destruct (UIPanel.justify _ _ _ _ _ _). now split.
Qed.

(** C10: [getChildren] returns a new array holding the current children.
    Whatever the caller then makes of that array (any final contents
    [mutated]), the panel's own child list is as it was, [layout] yields the
    same panel and the same elements, and a further [getChildren] returns
    yet another array, again holding the panel's children. *)
Theorem getChildren_returns_fresh_copy w (mutated : list eid) :
  (UIPanel._children (UIPanel.this w) < UIPanel.next_loc (UIPanel.heap w))%nat ->
  let returned := fst (UIPanel.getChildren w) in
  let w1 := snd (UIPanel.getChildren w) in
  let w2 := {| UIPanel.this := UIPanel.this w1;
               UIPanel.heap := UIPanel.set_array returned mutated (UIPanel.heap w1) |} in
  returned <> UIPanel._children (UIPanel.this w) /\
  UIPanel.arrays (UIPanel.heap w1) returned = UIPanel.children w /\
  UIPanel.children w1 = UIPanel.children w /\
  UIPanel.children w2 = UIPanel.children w /\
  UIPanel.this (UIPanel.layout w2) = UIPanel.this (UIPanel.layout w) /\
  UIPanel.elems (UIPanel.heap (UIPanel.layout w2)) =
    UIPanel.elems (UIPanel.heap (UIPanel.layout w)) /\
  fst (UIPanel.getChildren w2) <> returned /\
  fst (UIPanel.getChildren w2) <> UIPanel._children (UIPanel.this w) /\
  UIPanel.arrays (UIPanel.heap (snd (UIPanel.getChildren w2))) (fst (UIPanel.getChildren w2))
    = UIPanel.children w.
Proof.
  intros Hlive returned w1 w2.
  assert (Hne : UIPanel._children (UIPanel.this w) <> returned).
  { unfold returned. simpl. lia. }
  assert (Hc1 : UIPanel.children w1 = UIPanel.children w).
  { unfold w1, UIPanel.children. simpl. now rewrite upd_other. }
  assert (Hc2 : UIPanel.children w2 = UIPanel.children w).
  { unfold w2, UIPanel.children. simpl. fold returned.
    rewrite !upd_other by exact Hne. reflexivity. }
  split; [now apply not_eq_sym|].
  split; [unfold w1, returned; simpl; apply upd_same|].
  split; [exact Hc1|].
  split; [exact Hc2|].
  destruct (layout_depends w2 w eq_refl Hc2 eq_refl) as [Hthis Helems].
  split; [exact Hthis|].
  split; [exact Helems|].
  split; [unfold returned; simpl; lia|].
  split; [simpl; lia|].
  simpl. rewrite upd_same. exact Hc2.
Qed.

(** C9: [layout] on a panel without children returns at once: the panel
    (size, background, parameters) and the whole heap are as before,
    whatever the parameters are. *)
Theorem layout_empty_noop w :
  UIPanel.children w = [] -> UIPanel.layout w = w.
Proof. exact (layout_nil w). Qed.

End LayoutFacts.

(** ** Exact arithmetic *)

Section ExactFacts.
Local Open Scope js_scope.

Implicit Types (p : UIPanel.t Qc) (w : UIPanel.World Qc).
Implicit Types (els : eid -> UIElement.t Qc) (cs : list eid).

Ltac qc_ops := cbv [add sub mul div neg of_Z Math_max Number_Qc Qc_of_Z] in *.

Lemma Qc_two : Q2Qc (inject_Z 2) = (1 + 1)%Qc.
Proof. apply Qc_is_canon. reflexivity. Qed.

Lemma Qc_zero : Q2Qc (inject_Z 0) = 0%Qc.
Proof. apply Qc_is_canon. reflexivity. Qed.

Lemma Qc_max_cases (a b : Qc) :
  (a <= Qc_max a b)%Qc /\ (b <= Qc_max a b)%Qc /\ (Qc_max a b = a \/ Qc_max a b = b).
Proof.
  unfold Qc_max. destruct (a ?= b)%Qc eqn:Hcmp.
  - apply Qceq_alt in Hcmp. subst b.
    repeat split; try apply Qcle_refl. now left.
  - apply Qclt_alt in Hcmp.
    repeat split; [now apply Qclt_le_weak|apply Qcle_refl|now right].
  - apply Qcgt_alt in Hcmp.
    repeat split; [apply Qcle_refl|now apply Qclt_le_weak|now left].
Qed.

Lemma fold_max_bounds (l : list Qc) : forall a,
  (a <= fold_left Qc_max l a)%Qc /\
  (forall b, In b l -> (b <= fold_left Qc_max l a)%Qc) /\
  (fold_left Qc_max l a = a \/ In (fold_left Qc_max l a) l).
Proof.
  induction l as [|b l IH]; intros a; simpl.
  - repeat split; [apply Qcle_refl|intros b []|now left].
  - destruct (IH (Qc_max a b)) as (Hge & Hall & Hin).
    destruct (Qc_max_cases a b) as (Ha & Hb & Hor).
    repeat split.
    + eapply Qcle_trans; eassumption.
    + intros c [<-|Hc]; [eapply Qcle_trans; eassumption|now apply Hall].
    + destruct Hin as [Heq|Hin]; [|now right; right].
      rewrite Heq. destruct Hor as [->| ->]; [now left|now right; left].
Qed.

(** Starting from [0], the running maximum over non-negative numbers is
    their maximum. *)
Lemma fold_max_is_maximum (l : list Qc) :
  l <> [] ->
  (forall b, In b l -> (0 <= b)%Qc) ->
  is_maximum (fold_left Qc_max l 0%Qc) l.
Proof.
  intros Hne Hpos.
  destruct (fold_max_bounds l 0%Qc) as (Hge & Hall & Hin).
  split; [|exact Hall].
  destruct Hin as [Heq|Hin]; [|exact Hin].
  destruct l as [|b l]; [contradiction|].
  assert (Hb : b = 0%Qc).
  { apply Qcle_antisym; [|apply Hpos; now left].
    rewrite <- Heq. apply Hall. now left. }
  rewrite Heq, <- Hb. now left.
Qed.

Lemma fold_add_sum d els cs : forall acc : Qc,
  fold_left add (map (fun c => UIPanel.childMainSize d (els c)) cs) acc =
  acc + sumOfChildMainSizes d els cs.
Proof.
  induction cs as [|c rest IH]; intros acc; simpl.
  - qc_ops. rewrite Qc_zero. ring.
  - rewrite IH. qc_ops. ring.
Qed.

Lemma totalMainSize_sum p els cs :
  UIPanel.totalMainSize p els cs =
  sumOfChildMainSizes (UIPanel._direction p) els cs
  + UIPanel._gap p * (UIPanel.count cs - 1).
Proof.
  unfold UIPanel.totalMainSize, UIPanel.measure.
  rewrite measure_step_fold, fold_add_sum. simpl fst.
  qc_ops. rewrite Qc_zero. ring.
Qed.

Lemma maxCrossSize_is_maximum p els cs :
  cs <> [] ->
  (forall c, In c cs -> (0 <= UIPanel.childCrossSize (UIPanel._direction p) (els c))%Qc) ->
  is_maximum (UIPanel.maxCrossSize p els cs)
    (map (fun c => UIPanel.childCrossSize (UIPanel._direction p) (els c)) cs).
Proof.
  intros Hne Hpos. unfold UIPanel.maxCrossSize, UIPanel.measure.
  rewrite measure_step_fold. simpl snd. qc_ops. rewrite Qc_zero.
  apply fold_max_is_maximum.
  - destruct cs; [contradiction|discriminate].
  - intros b Hb. apply in_map_iff in Hb. destruct Hb as [c [<- Hc]]. now apply Hpos.
Qed.

Lemma autoSize_dimensions_exact w :
  UIPanel._autoSize (UIPanel.this w) = true ->
  UIPanel.children w <> [] ->
  (forall c, In c (UIPanel.children w) ->
     (0 <= UIPanel.childCrossSize (UIPanel._direction (UIPanel.this w))
             (UIPanel.elems (UIPanel.heap w) c))%Qc) ->
  let p := UIPanel.this w in
  let p' := UIPanel.this (UIPanel.layout w) in
  let d := UIPanel._direction p in
  let els := UIPanel.elems (UIPanel.heap w) in
  let cs := UIPanel.children w in
  let main := sumOfChildMainSizes d els cs + UIPanel._gap p * (UIPanel.count cs - 1) in
  exists maxCross,
    is_maximum maxCross (map (fun c => UIPanel.childCrossSize d (els c)) cs) /\
    match d with
    | horizontal =>
        UIPanel._width p' = main + UIPanel.paddingLeft p + UIPanel.paddingRight p /\
        UIPanel._height p' = maxCross + UIPanel.paddingTop p + UIPanel.paddingBottom p
    | vertical =>
        UIPanel._height p' = main + UIPanel.paddingTop p + UIPanel.paddingBottom p /\
        UIPanel._width p' = maxCross + UIPanel.paddingLeft p + UIPanel.paddingRight p
    end.
Proof.
  intros Hauto Hne Hpos p p' d els cs main.
  exists (UIPanel.maxCrossSize p els cs).
  split; [now apply maxCrossSize_is_maximum|].
  subst main p' d els cs p. rewrite (layout_this w Hne), <- totalMainSize_sum.
  unfold UIPanel.autoSize. rewrite Hauto.
  destruct (UIPanel._direction (UIPanel.this w)); simpl; now split.
Qed.

(** The positions of two children placed one after the other leave
    exactly [spacing] between them. *)
Lemma placement_spacing p (spacing m : Qc) (ea eb ea' eb' : UIElement.t Qc) :
  UIElement._width ea' = UIElement._width ea ->
  UIElement._height ea' = UIElement._height ea ->
  UIElement._width eb' = UIElement._width eb ->
  UIElement._height eb' = UIElement._height eb ->
  UIElement.position ea' = UIPanel.placement p m ea ->
  UIElement.position eb' = UIPanel.placement p (UIPanel.advance p spacing m ea) eb ->
  spacing_between (UIPanel._direction p) ea' eb' = spacing.
Proof.
  intros Hwa Hha Hwb Hhb Hpa Hpb.
  unfold spacing_between, leading_edge, trailing_edge, UIElement.width, UIElement.height.
  rewrite Hpa, Hpb, Hwa, Hha, Hwb, Hhb.
  unfold UIPanel.placement, UIPanel.advance, UIPanel.childMainSize,
    UIElement.width, UIElement.height.
  destruct (UIPanel._direction p); simpl; qc_ops; rewrite Qc_two; field; discriminate.
Qed.

Lemma placement_leading_edge p (m : Qc) (e e' : UIElement.t Qc) :
  UIElement._width e' = UIElement._width e ->
  UIElement._height e' = UIElement._height e ->
  UIElement.position e' = UIPanel.placement p m e ->
  leading_edge (UIPanel._direction p) e' = m.
Proof.
  intros Hw Hh Hp.
  unfold leading_edge, UIElement.width, UIElement.height.
  rewrite Hp, Hw, Hh.
  unfold UIPanel.placement, UIPanel.childMainSize, UIElement.width, UIElement.height.
  destruct (UIPanel._direction p); simpl; qc_ops; rewrite Qc_two; field; discriminate.
Qed.

Lemma space_between_exact w first rest :
  UIPanel._justify (UIPanel.this w) = justify_space_between ->
  UIPanel.children w = first :: rest ->
  rest <> [] ->
  NoDup (UIPanel.children w) ->
  let d := UIPanel._direction (UIPanel.this w) in
  let after := elems_after (UIPanel.layout w) in
  leading_edge d (after first) = UIPanel.mainStart (UIPanel.this (UIPanel.layout w)) /\
  forall pre a b post,
    UIPanel.children w = pre ++ a :: b :: post ->
    spacing_between d (after a) (after b) =
    (UIPanel.mainSize (UIPanel.this w)
       - sumOfChildMainSizes d (UIPanel.elems (UIPanel.heap w)) (UIPanel.children w))
    / (UIPanel.count (UIPanel.children w) - 1).
Proof.
  intros Hj Hcs Hrest Hnd d after.
  assert (Hne : UIPanel.children w <> []) by (rewrite Hcs; discriminate).
  destruct (layout_params w) as (Hd & _).
  split.
  - unfold d. rewrite <- Hd.
    destruct (layout_sizes w first) as [Hw Hh].
    apply placement_leading_edge with (e := UIPanel.elems (UIPanel.heap w) first);
      [exact Hw|exact Hh|].
    eapply first_child_at_mainStart; [exact Hcs| |now right].
    rewrite Hcs in Hnd. now inversion Hnd.
  - intros pre a b post Hsplit.
    destruct (layout_elems w Hne) as [mainPos [spacing [Hjust Hplace]]].
    assert (Hsp : spacing =
      (UIPanel.mainSize (UIPanel.this w)
         - sumOfChildMainSizes d (UIPanel.elems (UIPanel.heap w)) (UIPanel.children w))
      / (UIPanel.count (UIPanel.children w) - 1)).
    { pose proof (f_equal snd Hjust) as Hs. cbn [snd] in Hs. rewrite <- Hs.
      replace (1 <? length (UIPanel.children w))%nat with true.
      - rewrite justify_space_between_spacing by exact Hj.
        rewrite totalMainSize_sum. fold d. qc_ops. f_equal. ring.
      - symmetry. apply Nat.ltb_lt. rewrite Hcs. destruct rest; [contradiction|simpl; lia]. }
    rewrite <- Hsp. unfold d. rewrite <- Hd.
    destruct (layout_sizes w a) as [Hwa Hha].
    destruct (layout_sizes w b) as [Hwb Hhb].
    rewrite Hsplit in Hnd.
    destruct (place_consecutive (UIPanel.this (UIPanel.layout w)) spacing
                pre a b post mainPos (UIPanel.elems (UIPanel.heap w)) Hnd)
      as [m [Ha Hb]].
    rewrite <- Hsplit, <- Hplace in Ha, Hb.
    eapply placement_spacing; eassumption.
Qed.

End ExactFacts.

(** * The claims on concrete scenes and in exact arithmetic *)

(** A check by evaluation of a closed statement on binary64 numbers. *)
Ltac by_evaluation := vm_compute; repeat split; reflexivity.

Lemma layout_empty_noop_witness :
  UIPanel._autoSize (UIPanel.this empty_scene) = true /\
  UIPanel.children empty_scene = [] /\
  UIPanel.layout empty_scene = empty_scene.
Proof.
  split; [reflexivity|].
  split; [reflexivity|].
  apply (layout_empty_noop empty_scene). reflexivity.
Defined.

Lemma align_center_cross_zero_witness :
  UIElement.height (elems_after centered_scene 1%nat)
    <> UIElement.height (elems_after centered_scene 2%nat) /\
  cross_coordinate horizontal (elems_after (UIPanel.layout centered_scene) 1%nat) = 0%float /\
  cross_coordinate horizontal (elems_after (UIPanel.layout centered_scene) 2%nat)
    = cross_coordinate horizontal (elems_after (UIPanel.layout centered_scene) 1%nat).
Proof.
  split; [vm_compute; discriminate|].
  assert (Halign : UIPanel._align (UIPanel.this centered_scene) = align_center)
    by reflexivity.
  assert (Hfirst : In 1%nat (UIPanel.children centered_scene))
    by (vm_compute; now left).
  assert (Hsecond : In 2%nat (UIPanel.children centered_scene))
    by (vm_compute; now right; left).
  exact (align_center_cross_zero centered_scene 1%nat 2%nat Halign Hfirst Hsecond).
Defined.

Lemma getChildren_returns_fresh_copy_witness :
  let w := space_between_scene in
  let returned := fst (UIPanel.getChildren w) in
  let w1 := snd (UIPanel.getChildren w) in
  UIPanel.children
    {| UIPanel.this := UIPanel.this w1;
       UIPanel.heap := UIPanel.set_array returned [3; 3; 1]%nat (UIPanel.heap w1) |}
  = UIPanel.children w.
Proof.
  refine (proj1 (proj2 (proj2 (proj2
            (getChildren_returns_fresh_copy space_between_scene [3; 3; 1]%nat _))))).
  vm_compute. lia.
Defined.

(** C8: a child of size (1,1) in a horizontal 4 x 2 panel with
    justify=start, align=start, no padding and no gap is placed at
    X = -1.5 and Y = -0.5 (and at depth 0.01). *)
Theorem single_child_start_start :
  position_of single_child_scene 1 = ((-1.5)%float, (-0.5)%float, lit_0_01).
Proof. by_evaluation. Qed.

(** C3 (evaluation): where the panel has a fixed size, the example of
    the specification comes out as stated: three children of main size 1 in
    a row of content extent 10 without padding (configured gap 0.25) are
    centred at -4.5, 0 and 4.5, with 3.5 between neighbours, the last one
    ending at the content edge 5.  With [autoSize] the rule fails: a row
    created 10 x 1 receives the same three children, one [addChild] after
    the other.  The third [layout] resizes the panel to 3 x 1, so that
    [mainStart] is -1.5, the content extent is 3 and the rule
    [(mainSize - sumOfChildMainSizes) / (count - 1)] gives (3 - 3)/2 = 0;
    the first child does start at [mainStart], yet the space between
    neighbours is -0.5 = (2 - 3)/2, computed from the extent 2 the content
    had on entry: the children overlap, centred at -1, -0.5 and 0, and the
    last one ends at 0.5, not at the content edge 1.5.  One more [layout]
    of the unchanged panel gives the spacing 0 and the children -1, 0, 1. *)
Theorem space_between_spaces_with_entry_extent :
  (UIPanel.mainSize (UIPanel.this space_between_scene) = 10%float /\
   UIPanel._gap (UIPanel.this space_between_scene) = 0.25%float /\
   position_of space_between_scene 1 = ((-4.5)%float, 0%float, lit_0_01) /\
   position_of space_between_scene 2 = (0%float, 0%float, lit_0_01) /\
   position_of space_between_scene 3 = (4.5%float, 0%float, lit_0_01) /\
   spacing_between horizontal
     (elems_after space_between_scene 1%nat) (elems_after space_between_scene 2%nat)
     = 3.5%float /\
   spacing_between horizontal
     (elems_after space_between_scene 2%nat) (elems_after space_between_scene 3%nat)
     = 3.5%float /\
   trailing_edge horizontal (elems_after space_between_scene 3%nat) = 5%float)
  /\
  (let w := autosize_space_between_scene in
   let p := UIPanel.this w in
   let after := elems_after w in
   UIPanel.children w = [1; 2; 3]%nat /\
   size_of w = (3%float, 1%float) /\
   UIPanel.mainStart p = (-1.5)%float /\
   UIPanel.mainSize p = 3%float /\
   content_main_end p = 1.5%float /\
   sumOfChildMainSizes horizontal after (UIPanel.children w) = 3%float /\
   ((UIPanel.mainSize p - sumOfChildMainSizes horizontal after (UIPanel.children w))
    / (UIPanel.count (UIPanel.children w) - 1))%js = 0%float /\
   leading_edge horizontal (after 1%nat) = (-1.5)%float /\
   spacing_between horizontal (after 1%nat) (after 2%nat) = (-0.5)%float /\
   spacing_between horizontal (after 2%nat) (after 3%nat) = (-0.5)%float /\
   position_of w 1 = ((-1)%float, 0%float, lit_0_01) /\
   position_of w 2 = ((-0.5)%float, 0%float, lit_0_01) /\
   position_of w 3 = (0%float, 0%float, lit_0_01) /\
   trailing_edge horizontal (after 3%nat) = 0.5%float)
  /\
  (let w := UIPanel.layout autosize_space_between_scene in
   let after := elems_after w in
   size_of w = (3%float, 1%float) /\
   spacing_between horizontal (after 1%nat) (after 2%nat) = 0%float /\
   spacing_between horizontal (after 2%nat) (after 3%nat) = 0%float /\
   position_of w 1 = ((-1)%float, 0%float, lit_0_01) /\
   position_of w 2 = (0%float, 0%float, lit_0_01) /\
   position_of w 3 = (1%float, 0%float, lit_0_01) /\
   trailing_edge horizontal (after 3%nat) = 1.5%float).
Proof. by_evaluation. Qed.

(** C4: with [autoSize] and at least one child, [layout] makes the
    panel's main dimension the running sum of the children's main sizes plus
    [gap * (count - 1)] plus the two paddings of that axis, and its cross
    dimension the running maximum (from 0) of the children's cross sizes
    plus the two paddings of the other axis (any number representation).  In
    exact arithmetic, for children of non-negative size, these are the sum of
    the main sizes and the largest cross size.  On binary64 numbers: a column with children of
    heights 1 and 2 (widths 3 and 5), gap 0.5 and no padding becomes 3.5
    high and 5 wide. *)
Theorem autoSize_fits_children :
  (forall (num : Type) (N : Number num) (w : UIPanel.World num),
     UIPanel._autoSize (UIPanel.this w) = true ->
     UIPanel.children w <> [] ->
     let p := UIPanel.this w in
     let p' := UIPanel.this (UIPanel.layout w) in
     let d := UIPanel._direction p in
     let els := UIPanel.elems (UIPanel.heap w) in
     let cs := UIPanel.children w in
     let main :=
       (fold_left add (map (fun c => UIPanel.childMainSize d (els c)) cs) 0
        + UIPanel._gap p * (UIPanel.count cs - 1))%js in
     let cross :=
       fold_left Math_max (map (fun c => UIPanel.childCrossSize d (els c)) cs) 0%js in
     match d with
     | horizontal =>
         UIPanel._width p' = (main + UIPanel.paddingLeft p + UIPanel.paddingRight p)%js /\
         UIPanel._height p' = (cross + UIPanel.paddingTop p + UIPanel.paddingBottom p)%js
     | vertical =>
         UIPanel._height p' = (main + UIPanel.paddingTop p + UIPanel.paddingBottom p)%js /\
         UIPanel._width p' = (cross + UIPanel.paddingLeft p + UIPanel.paddingRight p)%js
     end)
  /\
  (forall w : UIPanel.World Qc,
     UIPanel._autoSize (UIPanel.this w) = true ->
     UIPanel.children w <> [] ->
     (forall c, In c (UIPanel.children w) ->
        (0 <= UIPanel.childCrossSize (UIPanel._direction (UIPanel.this w))
                (UIPanel.elems (UIPanel.heap w) c))%Qc) ->
     let p := UIPanel.this w in
     let p' := UIPanel.this (UIPanel.layout w) in
     let d := UIPanel._direction p in
     let els := UIPanel.elems (UIPanel.heap w) in
     let cs := UIPanel.children w in
     let main := (sumOfChildMainSizes d els cs + UIPanel._gap p * (UIPanel.count cs - 1))%js in
     exists maxCross,
       is_maximum maxCross (map (fun c => UIPanel.childCrossSize d (els c)) cs) /\
       match d with
       | horizontal =>
           UIPanel._width p' = (main + UIPanel.paddingLeft p + UIPanel.paddingRight p)%js /\
           UIPanel._height p' = (maxCross + UIPanel.paddingTop p + UIPanel.paddingBottom p)%js
       | vertical =>
           UIPanel._height p' = (main + UIPanel.paddingTop p + UIPanel.paddingBottom p)%js /\
           UIPanel._width p' = (maxCross + UIPanel.paddingLeft p + UIPanel.paddingRight p)%js
       end)
  /\
  (UIPanel._autoSize (UIPanel.this autosize_column_scene) = true /\
   UIPanel._direction (UIPanel.this autosize_column_scene) = vertical /\
   UIPanel._gap (UIPanel.this autosize_column_scene) = 0.5%float /\
   map (fun c => UIElement.height (elems_after autosize_column_scene c)) [1; 2]%nat
     = [1; 2]%float /\
   map (fun c => UIElement.width (elems_after autosize_column_scene c)) [1; 2]%nat
     = [3; 5]%float /\
   size_of autosize_column_scene = (5%float, 3.5%float)).
Proof.
  split; [|split].
  - intros num N w Hauto Hne. exact (layout_autoSize_folds w Hauto Hne).
  - intros w Hauto Hne Hpos. exact (autoSize_dimensions_exact w Hauto Hne Hpos).
  - by_evaluation.
Qed.

Lemma autoSize_fits_children_witness :
  let w := autosize_column_scene_exact in
  exists maxCross,
    is_maximum maxCross
      (map (fun c => UIPanel.childCrossSize vertical (UIPanel.elems (UIPanel.heap w) c))
           (UIPanel.children w)) /\
    UIPanel._height (UIPanel.this (UIPanel.layout w))
      = (sumOfChildMainSizes vertical (UIPanel.elems (UIPanel.heap w)) (UIPanel.children w)
         + UIPanel._gap (UIPanel.this w) * (UIPanel.count (UIPanel.children w) - 1)
         + UIPanel.paddingTop (UIPanel.this w) + UIPanel.paddingBottom (UIPanel.this w))%js /\
    UIPanel._width (UIPanel.this (UIPanel.layout w))
      = (maxCross + UIPanel.paddingLeft (UIPanel.this w)
         + UIPanel.paddingRight (UIPanel.this w))%js.
Proof.
  apply (proj1 (proj2 autoSize_fits_children) autosize_column_scene_exact).
  - reflexivity.
  - vm_compute. discriminate.
  - intros c Hc. change (UIPanel.children autosize_column_scene_exact) with [1; 2]%nat in Hc.
    destruct Hc as [<-|[<-|[]]]; vm_compute; discriminate.
Defined.

(** C7: [mainStart] depends on the axis.  In a row it is
    [-width/2 + paddingLeft], in a column [height/2 - paddingTop]; this is
    where the leading edge of a single child under [justify = start] is put
    (the child is centred half its main size further).  In exact arithmetic,
    a left padding of 1 moves a row's [mainStart] right by exactly 1, a top
    padding of 1 moves a column's [mainStart] down by exactly 1, and the left
    padding has no effect on a column's [mainStart].  On binary64 numbers:
    the single child of a 4 x 2 row moves from X = -1.5 to X = -0.5 with
    padding [0,0,0,1] (and not at all with padding [1,0,0,0]); the single
    child of a 2 x 4 column stays at Y = 1.5 with padding [0,0,0,1] and
    moves to Y = 0.5 with padding [1,0,0,0]. *)
Theorem mainStart_depends_on_axis :
  (forall (num : Type) (N : Number num) (w : UIPanel.World num) (c : eid),
     UIPanel.children w = [c] ->
     UIPanel._justify (UIPanel.this w) = justify_start ->
     let p' := UIPanel.this (UIPanel.layout w) in
     let e := UIPanel.elems (UIPanel.heap w) c in
     (UIPanel._direction (UIPanel.this w) = horizontal ->
        UIPanel.mainStart p' = (- UIPanel._width p' / 2 + UIPanel.paddingLeft p')%js /\
        x (UIElement.position (elems_after (UIPanel.layout w) c))
          = (UIPanel.mainStart p' + UIElement.width e / 2)%js) /\
     (UIPanel._direction (UIPanel.this w) = vertical ->
        UIPanel.mainStart p' = (UIPanel._height p' / 2 - UIPanel.paddingTop p')%js /\
        y (UIElement.position (elems_after (UIPanel.layout w) c))
          = (UIPanel.mainStart p' - UIElement.height e / 2)%js))
  /\
  (forall (num : Type) (N : Number num) (p : UIPanel.t num) top right bottom left left',
     UIPanel._direction p = vertical ->
     UIPanel.mainStart (UIPanel.with_padding (top, right, bottom, left) p)
     = UIPanel.mainStart (UIPanel.with_padding (top, right, bottom, left') p))
  /\
  (forall (p : UIPanel.t Qc) (top right bottom left : Qc),
     (UIPanel._direction p = horizontal ->
        UIPanel.mainStart (UIPanel.with_padding (top, right, bottom, 1%Qc) p)
        = (UIPanel.mainStart (UIPanel.with_padding (top, right, bottom, 0%Qc) p) + 1)%Qc) /\
     (UIPanel._direction p = vertical ->
        UIPanel.mainStart (UIPanel.with_padding (1%Qc, right, bottom, left) p)
        = (UIPanel.mainStart (UIPanel.with_padding (0%Qc, right, bottom, left) p) - 1)%Qc))
  /\
  (position_of (padded_row 0 0) 1 = ((-1.5)%float, 0%float, lit_0_01) /\
   position_of (padded_row 0 1) 1 = ((-0.5)%float, 0%float, lit_0_01) /\
   position_of (padded_row 1 0) 1 = ((-1.5)%float, 0%float, lit_0_01) /\
   position_of (padded_column 0 0) 1 = (0%float, 1.5%float, lit_0_01) /\
   position_of (padded_column 0 1) 1 = (0%float, 1.5%float, lit_0_01) /\
   position_of (padded_column 1 0) 1 = (0%float, 0.5%float, lit_0_01)).
Proof.
  split; [|split; [|split]].
  - intros num N w c Hcs Hj p' e.
    destruct (single_child_main_coordinate w Hcs Hj) as [Hrow Hcol].
    destruct (layout_params w) as (Hd & _).
    fold p' in Hd, Hrow, Hcol. fold e in Hrow, Hcol.
    split; intros Hdir; unfold UIPanel.mainStart; rewrite Hd, Hdir;
      (split; [reflexivity|]); [now apply Hrow|now apply Hcol].
  - intros num N p top right bottom left left' Hd.
    now apply mainStart_vertical_ignores_left.
  - intros p top right bottom left.
    split; intros Hd; unfold UIPanel.mainStart; simpl; rewrite Hd;
      unfold UIPanel.paddingLeft, UIPanel.paddingTop; simpl;
      cbv [add sub mul div neg of_Z Number_Qc Qc_of_Z]; ring.
  - by_evaluation.
Qed.

Lemma mainStart_depends_on_axis_witness :
  x (UIElement.position (elems_after (UIPanel.layout (padded_row 0 1)) 1%nat))
  = (UIPanel.mainStart (UIPanel.this (UIPanel.layout (padded_row 0 1)))
     + UIElement.width (UIPanel.elems (UIPanel.heap (padded_row 0 1)) 1%nat) / 2)%js.
Proof.
  assert (Hcs : UIPanel.children (padded_row 0 1) = [1%nat]) by reflexivity.
  assert (Hj : UIPanel._justify (UIPanel.this (padded_row 0 1)) = justify_start)
    by reflexivity.
  assert (Hd : UIPanel._direction (UIPanel.this (padded_row 0 1)) = horizontal)
    by reflexivity.
  exact (proj2 (proj1 (proj1 mainStart_depends_on_axis float Number_float
                         (padded_row 0 1) 1%nat Hcs Hj) Hd)).
Defined.

(** C1 (evaluation): a row with [autoSize] and [justify = center] is
    created 10 x 1 and receives one child of size 2 x 1.  [layout] first
    shrinks the panel to 2 x 1 (the background too), so that [mainStart] is
    -1 and the content extent of the resized panel is 2; yet the child is
    centred at X = 4 = -1 + (10 - 2)/2 + 2/2, that is, [justify] worked
    with the extent 10 the content had on entry.  From the recomputed extent
    the child would be at -1 + (2 - 2)/2 + 2/2 = 0. *)
Theorem autoSize_justifies_with_entry_extent :
  size_of autosize_center_before = (10%float, 1%float) /\
  UIPanel.mainSize (UIPanel.this autosize_center_before) = 10%float /\
  size_of autosize_center_scene = (2%float, 1%float) /\
  option_map (fun b => (UIBox._width b, UIBox._height b))
    (UIPanel.background (UIPanel.this autosize_center_scene)) = Some (2%float, 1%float) /\
  UIPanel.mainStart (UIPanel.this autosize_center_scene) = (-1)%float /\
  UIPanel.mainSize (UIPanel.this autosize_center_scene) = 2%float /\
  position_of autosize_center_scene 1 = (4%float, 0%float, lit_0_01).
Proof. by_evaluation. Qed.

(** C2 (evaluation): in the same scene the first [layout] (run by
    [addChild]) leaves the child at X = 4; a second [layout], with the same
    child and the same parameters, moves it to X = 0, the panel staying
    2 x 1; a third one changes nothing any more. *)
Theorem layout_twice_moves_child :
  position_of autosize_center_scene 1 = (4%float, 0%float, lit_0_01) /\
  position_of (UIPanel.layout autosize_center_scene) 1 = (0%float, 0%float, lit_0_01) /\
  size_of (UIPanel.layout autosize_center_scene) = size_of autosize_center_scene /\
  UIPanel.children (UIPanel.layout autosize_center_scene)
    = UIPanel.children autosize_center_scene /\
  position_of (UIPanel.layout (UIPanel.layout autosize_center_scene)) 1
    = position_of (UIPanel.layout autosize_center_scene) 1.
Proof. by_evaluation. Qed.

(** * More of the panel: the child list, frames and invariants *)

Section PanelFacts.
Context {num : Type} {N : Number num}.
Local Open Scope js_scope.

Implicit Types (p : UIPanel.t num) (w : UIPanel.World num).
Implicit Types (els : eid -> UIElement.t num) (cs l : list eid) (c e : eid).

(** *** [indexOf] and [splice] *)

Lemma indexOf_absent e l : ~ In e l -> UIPanel.indexOf e l = None.
Proof.
  induction l as [|a rest IH]; intros Hnot; [reflexivity|]. simpl.
  destruct (Nat.eqb_spec a e) as [->|_].
  - exfalso. apply Hnot. now left.
  - rewrite IH; [reflexivity|]. intros Hin. apply Hnot. now right.
Qed.

Lemma indexOf_first e pre post :
  ~ In e pre -> UIPanel.indexOf e (pre ++ e :: post) = Some (length pre).
Proof.
  induction pre as [|a pre IH]; intros Hnot; simpl.
  - now rewrite Nat.eqb_refl.
  - destruct (Nat.eqb_spec a e) as [->|_].
    + exfalso. apply Hnot. now left.
    + rewrite IH; [reflexivity|]. intros Hin. apply Hnot. now right.
Qed.

Lemma splice1_at_length pre e post :
  UIPanel.splice1 (length pre) (pre ++ e :: post) = pre ++ post.
Proof.
  unfold UIPanel.splice1.
  induction pre as [|a pre IH]; [reflexivity|].
  change (a :: (firstn (length pre) (pre ++ e :: post)
                ++ skipn (S (length pre)) (pre ++ e :: post)) = a :: (pre ++ post)).
  now rewrite IH.
Qed.

Lemma first_occurrence e l :
  In e l -> exists pre post, l = pre ++ e :: post /\ ~ In e pre.
Proof.
  induction l as [|a rest IH]; intros Hin; [destruct Hin|].
  destruct (Nat.eq_dec a e) as [->|Hne].
  - exists [], rest. split; [reflexivity|intros []].
  - destruct Hin as [Heq|Hin]; [contradiction|].
    destruct (IH Hin) as (pre & post & -> & Hnot).
    exists (a :: pre), post. split; [reflexivity|].
    intros [Heq|Hin']; [contradiction|now apply Hnot].
Qed.

Lemma remove_first_absent e l : ~ In e l -> remove_first e l = l.
Proof.
  induction l as [|a rest IH]; intros Hnot; [reflexivity|]. simpl.
  destruct (Nat.eqb_spec a e) as [->|_].
  - exfalso. apply Hnot. now left.
  - f_equal. apply IH. intros Hin. apply Hnot. now right.
Qed.

Lemma remove_first_split e pre post :
  ~ In e pre -> remove_first e (pre ++ e :: post) = pre ++ post.
Proof.
  induction pre as [|a pre IH]; intros Hnot; simpl.
  - now rewrite Nat.eqb_refl.
  - destruct (Nat.eqb_spec a e) as [->|_].
    + exfalso. apply Hnot. now left.
    + f_equal. apply IH. intros Hin. apply Hnot. now right.
Qed.

(** What the child list is after [removeChild], in both cases. *)
Lemma removeChild_children e w :
  UIPanel.children (UIPanel.removeChild e w) = remove_first e (UIPanel.children w).
Proof.
  unfold UIPanel.removeChild.
  destruct (in_dec Nat.eq_dec e (UIPanel.children w)) as [Hin|Hnot].
  - destruct (first_occurrence e _ Hin) as (pre & post & Hl & Hpre).
    rewrite Hl, indexOf_first, splice1_at_length, remove_first_split by exact Hpre.
    unfold UIPanel.children at 1.
    destruct (layout_arrays (UIPanel.set_children (pre ++ post) w)) as (-> & _ & ->).
    simpl. apply upd_same.
  - rewrite indexOf_absent, remove_first_absent by exact Hnot. reflexivity.
Qed.

Lemma addChild_children e w :
  UIPanel.children (UIPanel.addChild e w) = UIPanel.children w ++ [e].
Proof.
  unfold UIPanel.addChild, UIPanel.children at 1.
  destruct (layout_arrays (UIPanel.set_children (UIPanel.children w ++ [e]) w))
    as (-> & _ & ->).
  simpl. apply upd_same.
Qed.

Lemma layout_children w : UIPanel.children (UIPanel.layout w) = UIPanel.children w.
Proof.
  unfold UIPanel.children. destruct (layout_arrays w) as (-> & _ & ->). reflexivity.
Qed.

Lemma layout_live w : array_live w -> array_live (UIPanel.layout w).
Proof.
  unfold array_live. destruct (layout_arrays w) as (_ & -> & ->). trivial.
Qed.

Lemma run_children (k : UIPanel.call) w :
  array_live w -> keeps_arrays k ->
  UIPanel.children (UIPanel.run k w) = child_list_after k (UIPanel.children w) /\
  array_live (UIPanel.run k w).
Proof.
  intros Hlive Hkeep.
  destruct k as [e|e| | | | | | | | | | | |f]; simpl;
    unfold UIPanel.setDirection, UIPanel.setAlign, UIPanel.setJustify, UIPanel.setGap,
      UIPanel.setPadding, UIPanel.setSize;
    try (split; [rewrite layout_children; reflexivity|apply layout_live; exact Hlive]).
  - split; [apply addChild_children|]. apply layout_live. exact Hlive.
  - split; [apply removeChild_children|].
    unfold UIPanel.removeChild.
    destruct (UIPanel.indexOf e (UIPanel.children w)); [|exact Hlive].
    apply layout_live. exact Hlive.
  - split.
    + unfold UIPanel.clearChildren. simpl. rewrite layout_children.
      unfold UIPanel.children. simpl. apply upd_same.
    + apply layout_live. unfold array_live. simpl. lia.
  - unfold array_live in *. split; [|simpl; lia].
    unfold UIPanel.children. simpl. apply upd_other. lia.
  - split; [reflexivity|exact Hlive].
  - split; [reflexivity|exact Hlive].
  - destruct (Hkeep (UIPanel.heap w)) as [Ha Hn].
    unfold array_live, UIPanel.children in *. simpl. rewrite Ha, Hn. now split.
Qed.

Lemma run_all_children (calls : list UIPanel.call) w :
  array_live w ->
  Forall keeps_arrays calls ->
  array_live (UIPanel.run_all calls w) /\
  UIPanel.children (UIPanel.run_all calls w) =
  fold_left (fun l0 k => child_list_after k l0) calls (UIPanel.children w).
Proof.
  unfold UIPanel.run_all. revert w.
  induction calls as [|k calls IH]; intros w Hlive Hkeep; [now split|].
  inversion Hkeep as [|? ? Hk Hrest]; subst. simpl.
  destruct (@run_children k w Hlive Hk) as [Hch Hlive'].
  destruct (IH _ Hlive' Hrest) as [Hl Hc]. split; [exact Hl|].
  rewrite Hc. now rewrite Hch.
Qed.

(** X1: the panel's child list behaves like a plain list, whatever the
    layout parameters and the sizes of the elements are: [addChild] appends
    (also an element that is already a child), [removeChild] removes the
    first occurrence, [clearChildren] empties, and no other call (layout,
    setters, [setSize], [getChildren]) changes it. *)
Theorem children_follow_calls (calls : list UIPanel.call) w :
  array_live w ->
  Forall keeps_arrays calls ->
  UIPanel.children (UIPanel.run_all calls w) =
  fold_left (fun l0 k => child_list_after k l0) calls (UIPanel.children w).
Proof.
  intros Hlive Hkeep. now apply run_all_children.
Qed.

(** X27: a panel fresh from the constructor has no children and its
    child array is allocated; it stays allocated through every sequence of
    public calls, and the child list is then the result of replaying the
    calls on the empty list. *)
Theorem child_array_is_always_live
  (config : UIPanelConfig.t num) (h : UIPanel.Heap num) (calls : list UIPanel.call) :
  Forall keeps_arrays calls ->
  UIPanel.children (UIPanel.new config h) = [] /\
  array_live (UIPanel.run_all calls (UIPanel.new config h)) /\
  UIPanel.children (UIPanel.run_all calls (UIPanel.new config h))
  = fold_left (fun l0 k => child_list_after k l0) calls [].
Proof.
  intros Hkeep.
  assert (Hnew : UIPanel.children (UIPanel.new config h) = []).
  { unfold UIPanel.children, UIPanel.new. simpl. apply upd_same. }
  assert (Hlive : array_live (UIPanel.new config h)).
  { unfold array_live, UIPanel.new. simpl. lia. }
  split; [exact Hnew|].
  destruct (@run_all_children calls _ Hlive Hkeep) as [Hl Hc].
  split; [exact Hl|]. now rewrite Hc, Hnew.
Qed.

(** X2: [removeChild] of an element that is not a child changes nothing
    at all; in particular it does not run [layout]. *)
Theorem removeChild_absent_is_noop e w :
  ~ In e (UIPanel.children w) -> UIPanel.removeChild e w = w.
Proof.
  intros Hnot. unfold UIPanel.removeChild. now rewrite indexOf_absent.
Qed.

(** X3: [removeChild] removes the first occurrence of the element and
    keeps the others, in their order; a later occurrence of the same
    element stays. *)
Theorem removeChild_removes_first_occurrence e pre post w :
  UIPanel.children w = pre ++ e :: post ->
  ~ In e pre ->
  UIPanel.children (UIPanel.removeChild e w) = pre ++ post.
Proof.
  intros Hl Hpre. rewrite removeChild_children, Hl. now apply remove_first_split.
Qed.

(** *** What [layout] depends on *)

Lemma layout_this_without_autoSize w :
  UIPanel._autoSize (UIPanel.this w) = false ->
  UIPanel.this (UIPanel.layout w) = UIPanel.this w.
Proof.
  intros Hauto. destruct (UIPanel.children w) as [|c0 rest] eqn:Hcs.
  - now rewrite layout_nil.
  - rewrite layout_this by (rewrite Hcs; discriminate).
    unfold UIPanel.autoSize. now rewrite Hauto.
Qed.

(** Two runs of [layout] on the same panel with the same children, in
    heaps that agree on the sizes: the same panel comes out, and the same
    children. *)
Lemma layout_same_sizes w1 w2 :
  UIPanel.this w1 = UIPanel.this w2 ->
  UIPanel.children w1 = UIPanel.children w2 ->
  same_sizes (UIPanel.elems (UIPanel.heap w1)) (UIPanel.elems (UIPanel.heap w2)) ->
  UIPanel.this (UIPanel.layout w1) = UIPanel.this (UIPanel.layout w2) /\
  forall c, In c (UIPanel.children w1) ->
    elems_after (UIPanel.layout w1) c = elems_after (UIPanel.layout w2) c.
Proof.
  intros Ht Hc Hs.
  destruct (UIPanel.children w1) as [|c0 rest] eqn:Hcs1.
  { split; [|intros c []]. rewrite !layout_nil by congruence. exact Ht. }
  assert (Hne1 : UIPanel.children w1 <> []) by (rewrite Hcs1; discriminate).
  assert (Hne2 : UIPanel.children w2 <> []) by (rewrite <- Hc; discriminate).
  assert (Htot : UIPanel.totalMainSize (UIPanel.this w1) (UIPanel.elems (UIPanel.heap w1))
                   (UIPanel.children w1)
                 = UIPanel.totalMainSize (UIPanel.this w2) (UIPanel.elems (UIPanel.heap w2))
                   (UIPanel.children w2)).
  { unfold UIPanel.totalMainSize. rewrite Hcs1, <- Hc, Ht, (measure_same_sizes _ _ Hs).
    reflexivity. }
  assert (Hmax : UIPanel.maxCrossSize (UIPanel.this w1) (UIPanel.elems (UIPanel.heap w1))
                   (UIPanel.children w1)
                 = UIPanel.maxCrossSize (UIPanel.this w2) (UIPanel.elems (UIPanel.heap w2))
                   (UIPanel.children w2)).
  { unfold UIPanel.maxCrossSize. rewrite Hcs1, <- Hc, Ht, (measure_same_sizes _ _ Hs).
    reflexivity. }
  assert (Hthis : UIPanel.this (UIPanel.layout w1) = UIPanel.this (UIPanel.layout w2)).
  { rewrite (layout_this w1 Hne1), (layout_this w2 Hne2), Htot, Hmax, Ht. reflexivity. }
  split; [exact Hthis|]. intros c Hin. unfold elems_after.
  destruct (layout_elems w1 Hne1) as [m1 [s1 [Hj1 ->]]].
  destruct (layout_elems w2 Hne2) as [m2 [s2 [Hj2 ->]]].
  rewrite Htot, Hthis, Ht, Hcs1, Hc in Hj1. rewrite Hj2 in Hj1.
  injection Hj1 as -> ->. rewrite Hthis, Hcs1, Hc.
  apply place_same_sizes; [exact Hs|]. now rewrite <- Hc.
Qed.

(** X4: adding an element that was not a child and removing it again
    gives back the child list; without [autoSize] it also gives back the
    panel, and every former child is where a [layout] of the original
    panel puts it. *)
Theorem addChild_then_removeChild e w :
  ~ In e (UIPanel.children w) ->
  let w' := UIPanel.removeChild e (UIPanel.addChild e w) in
  UIPanel.children w' = UIPanel.children w /\
  (UIPanel._autoSize (UIPanel.this w) = false ->
   UIPanel.this w' = UIPanel.this w /\
   forall c, In c (UIPanel.children w) ->
     elems_after w' c = elems_after (UIPanel.layout w) c).
Proof.
  intros Hnot w'.
  assert (Hback : remove_first e (UIPanel.children w ++ [e]) = UIPanel.children w).
  { replace (UIPanel.children w ++ [e]) with (UIPanel.children w ++ e :: []) by reflexivity.
    rewrite remove_first_split by exact Hnot. apply app_nil_r. }
  split.
  { unfold w'. now rewrite removeChild_children, addChild_children. }
  intros Hauto.
  set (w1 := UIPanel.addChild e w) in *.
  assert (Hthis1 : UIPanel.this w1 = UIPanel.this w).
  { unfold w1, UIPanel.addChild. now rewrite layout_this_without_autoSize. }
  assert (Hs1 : same_sizes (UIPanel.elems (UIPanel.heap w1)) (UIPanel.elems (UIPanel.heap w))).
  { intros c. unfold w1, UIPanel.addChild.
    apply (layout_sizes (UIPanel.set_children (UIPanel.children w ++ [e]) w) c). }
  assert (Hidx : UIPanel.indexOf e (UIPanel.children w1) = Some (length (UIPanel.children w))).
  { unfold w1. rewrite addChild_children.
    replace (UIPanel.children w ++ [e]) with (UIPanel.children w ++ e :: []) by reflexivity.
    now apply indexOf_first. }
  assert (Hsplice : UIPanel.splice1 (length (UIPanel.children w)) (UIPanel.children w1)
                    = UIPanel.children w).
  { unfold w1. rewrite addChild_children.
    replace (UIPanel.children w ++ [e]) with (UIPanel.children w ++ e :: []) by reflexivity.
    rewrite splice1_at_length. apply app_nil_r. }
  unfold w', UIPanel.removeChild. rewrite Hidx, Hsplice.
  set (w2 := UIPanel.set_children (UIPanel.children w) w1).
  assert (Hc2 : UIPanel.children w2 = UIPanel.children w).
  { unfold w2, UIPanel.children at 1. simpl. apply upd_same. }
  destruct (layout_same_sizes w2 w Hthis1 Hc2 Hs1) as [Hthis Hel].
  split.
  - rewrite Hthis. now apply layout_this_without_autoSize.
  - intros c Hin. apply Hel. now rewrite Hc2.
Qed.

(** X5: a panel emptied by [clearChildren], or by [removeChild] of its
    last child, keeps its width, height and background as they are (an
    auto-sized panel does not shrink), and no element is touched. *)
Theorem emptied_panel_keeps_size (k : UIPanel.call) w :
  (k = UIPanel.ClearChildren \/ exists e, k = UIPanel.RemoveChild e) ->
  UIPanel.children (UIPanel.run k w) = [] ->
  size_of (UIPanel.run k w) = size_of w /\
  UIPanel.background (UIPanel.this (UIPanel.run k w)) = UIPanel.background (UIPanel.this w) /\
  UIPanel.elems (UIPanel.heap (UIPanel.run k w)) = UIPanel.elems (UIPanel.heap w).
Proof.
  intros [->|[e ->]] Hempty; simpl in *.
  - unfold UIPanel.clearChildren in *. simpl in *.
    rewrite layout_children in Hempty. rewrite layout_nil by exact Hempty.
    now repeat split.
  - unfold UIPanel.removeChild in *.
    destruct (UIPanel.indexOf e (UIPanel.children w)) as [i|]; [|now repeat split].
    rewrite layout_children in Hempty. rewrite layout_nil by exact Hempty.
    now repeat split.
Qed.

(** *** Frame and depth *)

(** Every child has been written by some iteration of the loop. *)
Lemma place_written p spacing cs : forall mainPos els c,
  In c cs ->
  exists m, UIElement.position (UIPanel.place p spacing cs mainPos els c)
            = UIPanel.placement p m (els c).
Proof.
  induction cs as [|c0 rest IH]; intros mainPos els c Hin; [destruct Hin|].
  destruct (in_dec Nat.eq_dec c rest) as [Hrest|Hrest].
  - rewrite place_cons.
    destruct (IH (UIPanel.advance p spacing mainPos (els c0))
                (upd els c0 (UIElement.set_position
                   (UIPanel.placement p mainPos (els c0)) (els c0))) c Hrest) as [m Hm].
    exists m. rewrite Hm. apply placement_sizes; unfold upd;
      destruct (Nat.eqb_spec c c0) as [->|_]; reflexivity.
  - destruct Hin as [->|Hin]; [|contradiction].
    exists mainPos. now rewrite place_head.
Qed.

Lemma layout_written w c :
  In c (UIPanel.children w) ->
  exists m, UIElement.position (elems_after (UIPanel.layout w) c)
            = UIPanel.placement (UIPanel.this (UIPanel.layout w)) m
                (UIPanel.elems (UIPanel.heap w) c).
Proof.
  intros Hin.
  assert (Hne : UIPanel.children w <> []) by (intros E; rewrite E in Hin; destruct Hin).
  unfold elems_after. destruct (layout_elems w Hne) as [mainPos [spacing [_ ->]]].
  now apply place_written.
Qed.

(** X6: [layout] does not touch an element that is not a child of the
    panel: neither its size nor its position. *)
Theorem layout_leaves_other_elements w c :
  ~ In c (UIPanel.children w) ->
  elems_after (UIPanel.layout w) c = elems_after w c.
Proof.
  intros Hnot. destruct (UIPanel.children w) as [|c0 rest] eqn:Hcs.
  - now rewrite layout_nil.
  - unfold elems_after.
    destruct (layout_elems w) as [mainPos [spacing [_ ->]]]; [rewrite Hcs; discriminate|].
    apply place_outside. now rewrite Hcs.
Qed.

(** X7: after [layout] every child is at depth 0.01, in front of the
    background, also a child that is listed more than once. *)
Theorem layout_children_depth w c :
  In c (UIPanel.children w) ->
  z (UIElement.position (elems_after (UIPanel.layout w) c)) = lit_0_01.
Proof.
  intros Hin. destruct (layout_written w c Hin) as [m ->].
  unfold UIPanel.placement.
  destruct (UIPanel._direction (UIPanel.this (UIPanel.layout w))); reflexivity.
Qed.

(** *** What never changes *)

Lemma layout_keeps_flags w :
  UIPanel._autoSize (UIPanel.this (UIPanel.layout w)) = UIPanel._autoSize (UIPanel.this w) /\
  (UIPanel.background (UIPanel.this (UIPanel.layout w)) = None <->
   UIPanel.background (UIPanel.this w) = None).
Proof.
  destruct (UIPanel.children w) as [|c0 rest] eqn:Hcs.
  - rewrite layout_nil by exact Hcs. now split.
  - rewrite layout_this by (rewrite Hcs; discriminate).
    split; [apply autoSize_params|].
    unfold UIPanel.autoSize, UIPanel.resize.
    destruct (UIPanel._autoSize (UIPanel.this w)); [|reflexivity].
    destruct (UIPanel._direction (UIPanel.this w)); simpl;
      destruct (UIPanel.background (UIPanel.this w)); simpl;
      split; intros H; first [discriminate H|reflexivity].
Qed.

Lemma layout_keeps_flags_of v w :
  UIPanel._autoSize (UIPanel.this v) = UIPanel._autoSize (UIPanel.this w) ->
  (UIPanel.background (UIPanel.this v) = None <-> UIPanel.background (UIPanel.this w) = None) ->
  UIPanel._autoSize (UIPanel.this (UIPanel.layout v)) = UIPanel._autoSize (UIPanel.this w) /\
  (UIPanel.background (UIPanel.this (UIPanel.layout v)) = None <->
   UIPanel.background (UIPanel.this w) = None).
Proof.
  intros Ha Hb. destruct (layout_keeps_flags v) as [Ha' Hb'].
  rewrite Ha', Hb'. now split.
Qed.

Lemma map_background_presence (f : UIBox.t num -> UIBox.t num) p :
  UIPanel.background (UIPanel.map_background f p) = None <-> UIPanel.background p = None.
Proof.
  unfold UIPanel.map_background. simpl.
  destruct (UIPanel.background p); split; intros H; first [discriminate H|reflexivity].
Qed.

Lemma run_keeps_flags (k : UIPanel.call) w :
  UIPanel._autoSize (UIPanel.this (UIPanel.run k w)) = UIPanel._autoSize (UIPanel.this w) /\
  (UIPanel.background (UIPanel.this (UIPanel.run k w)) = None <->
   UIPanel.background (UIPanel.this w) = None).
Proof.
  destruct k as [e|e| | | | | | | | | | | |f]; simpl.
  - apply layout_keeps_flags_of; reflexivity.
  - unfold UIPanel.removeChild.
    destruct (UIPanel.indexOf e (UIPanel.children w)); [|now split].
    apply layout_keeps_flags_of; reflexivity.
  - apply layout_keeps_flags_of; reflexivity.
  - now split.
  - apply layout_keeps_flags.
  - apply layout_keeps_flags_of; reflexivity.
  - apply layout_keeps_flags_of; reflexivity.
  - apply layout_keeps_flags_of; reflexivity.
  - apply layout_keeps_flags_of; reflexivity.
  - apply layout_keeps_flags_of; reflexivity.
  - split; [reflexivity|apply map_background_presence].
  - split; [reflexivity|apply map_background_presence].
  - apply layout_keeps_flags_of; [reflexivity|].
    unfold UIPanel.resize. simpl.
    destruct (UIPanel.background (UIPanel.this w)); split; intros H;
      first [discriminate H|reflexivity].
  - now split.
Qed.

(** X8: whether a panel sizes itself and whether it has a background is
    settled by the constructor: no sequence of public calls changes the
    [autoSize] flag, gives a background to a panel created without one, or
    takes it away. *)
Theorem autoSize_and_background_are_fixed (calls : list UIPanel.call) w :
  UIPanel._autoSize (UIPanel.this (UIPanel.run_all calls w))
    = UIPanel._autoSize (UIPanel.this w) /\
  (UIPanel.background (UIPanel.this (UIPanel.run_all calls w)) = None <->
   UIPanel.background (UIPanel.this w) = None).
Proof.
  unfold UIPanel.run_all. revert w.
  induction calls as [|k calls IH]; intros w; simpl; [now split|].
  destruct (IH (UIPanel.run k w)) as [Ha Hb].
  destruct (run_keeps_flags k w) as [Ha' Hb'].
  rewrite Ha, Hb, Ha', Hb'. now split.
Qed.

Lemma run_keeps_size (k : UIPanel.call) w :
  UIPanel._autoSize (UIPanel.this w) = false ->
  is_setSize k = false ->
  size_of (UIPanel.run k w) = size_of w.
Proof.
  intros Hauto Hk. unfold size_of.
  destruct k as [e|e| | | | | | | | | | | |f]; simpl; try discriminate Hk.
  - unfold UIPanel.addChild. now rewrite layout_this_without_autoSize.
  - unfold UIPanel.removeChild.
    destruct (UIPanel.indexOf e (UIPanel.children w)); [|reflexivity].
    now rewrite layout_this_without_autoSize.
  - unfold UIPanel.clearChildren. simpl. now rewrite layout_this_without_autoSize.
  - reflexivity.
  - now rewrite layout_this_without_autoSize.
  - unfold UIPanel.setDirection. now rewrite layout_this_without_autoSize.
  - unfold UIPanel.setAlign. now rewrite layout_this_without_autoSize.
  - unfold UIPanel.setJustify. now rewrite layout_this_without_autoSize.
  - unfold UIPanel.setGap. now rewrite layout_this_without_autoSize.
  - unfold UIPanel.setPadding. now rewrite layout_this_without_autoSize.
  - reflexivity.
  - reflexivity.
  - reflexivity.
Qed.

(** X9: a panel without [autoSize] has the size its constructor or the
    last [setSize] gave it: no other call, however many children are added
    or removed and whatever parameters are set, changes its width or
    height. *)
Theorem fixed_size_panel_keeps_size (calls : list UIPanel.call) w :
  UIPanel._autoSize (UIPanel.this w) = false ->
  forallb (fun k => negb (is_setSize k)) calls = true ->
  size_of (UIPanel.run_all calls w) = size_of w.
Proof.
  unfold UIPanel.run_all. revert w.
  induction calls as [|k calls IH]; intros w Hauto Hcalls; simpl; [reflexivity|].
  simpl in Hcalls. apply andb_prop in Hcalls. destruct Hcalls as [Hk Hrest].
  apply negb_true_iff in Hk.
  rewrite IH; [now apply run_keeps_size| |exact Hrest].
  destruct (run_keeps_flags k w) as [-> _]. exact Hauto.
Qed.

(** X10: on an auto-sized panel that has children, [setSize] cannot set
    the size: whatever width and height are passed, the panel comes out
    exactly as a plain [layout] leaves it (size and background computed
    from the children). *)
Theorem setSize_is_overridden_by_autoSize (width height : num) w :
  UIPanel._autoSize (UIPanel.this w) = true ->
  UIPanel.children w <> [] ->
  UIPanel.this (UIPanel.setSize width height w) = UIPanel.this (UIPanel.layout w).
Proof.
  intros Hauto Hne. unfold UIPanel.setSize.
  rewrite (layout_this w Hne).
  rewrite layout_this by exact Hne.
  unfold UIPanel.children, UIPanel.set_this. simpl.
  unfold UIPanel.totalMainSize, UIPanel.maxCrossSize, UIPanel.autoSize. simpl.
  rewrite Hauto.
  destruct (UIPanel._direction (UIPanel.this w)); unfold UIPanel.resize; simpl;
    destruct (UIPanel.background (UIPanel.this w)); reflexivity.
Qed.

(** *** Running [layout] twice *)

Lemma layout_again_when_justify_agrees w :
  (forall n start total more,
     UIPanel.justify (UIPanel.this (UIPanel.layout w)) n start
       (UIPanel.mainSize (UIPanel.this (UIPanel.layout w))) total more
     = UIPanel.justify (UIPanel.this w) n start
         (UIPanel.mainSize (UIPanel.this w)) total more) ->
  UIPanel.this (UIPanel.layout (UIPanel.layout w)) = UIPanel.this (UIPanel.layout w) /\
  forall c, elems_after (UIPanel.layout (UIPanel.layout w)) c
            = elems_after (UIPanel.layout w) c.
Proof.
  intros Hagree.
  destruct (UIPanel.children w) as [|c0 rest] eqn:Hcs.
  { rewrite !layout_nil by (rewrite ?layout_nil; exact Hcs). now split. }
  assert (Hne : UIPanel.children w <> []) by (rewrite Hcs; discriminate).
  set (w1 := UIPanel.layout w) in *.
  assert (Hcs1 : UIPanel.children w1 = UIPanel.children w) by apply layout_children.
  assert (Hne1 : UIPanel.children w1 <> []) by (rewrite Hcs1; exact Hne).
  assert (Hs : same_sizes (UIPanel.elems (UIPanel.heap w1)) (UIPanel.elems (UIPanel.heap w))).
  { intros c. apply (layout_sizes w c). }
  destruct (layout_params w) as (Hd & Hpad & Hj & Hg). fold w1 in Hd, Hpad, Hj, Hg.
  assert (Htot : UIPanel.totalMainSize (UIPanel.this w1) (UIPanel.elems (UIPanel.heap w1))
                   (UIPanel.children w1)
                 = UIPanel.totalMainSize (UIPanel.this w) (UIPanel.elems (UIPanel.heap w))
                   (UIPanel.children w)).
  { unfold UIPanel.totalMainSize.
    rewrite Hcs1, Hd, Hg, (measure_same_sizes _ _ Hs). reflexivity. }
  assert (Hmax : UIPanel.maxCrossSize (UIPanel.this w1) (UIPanel.elems (UIPanel.heap w1))
                   (UIPanel.children w1)
                 = UIPanel.maxCrossSize (UIPanel.this w) (UIPanel.elems (UIPanel.heap w))
                   (UIPanel.children w)).
  { unfold UIPanel.maxCrossSize.
    rewrite Hcs1, Hd, (measure_same_sizes _ _ Hs). reflexivity. }
  assert (Hthis : UIPanel.this (UIPanel.layout w1) = UIPanel.this w1).
  { rewrite (layout_this w1 Hne1), Htot, Hmax.
    unfold w1 at 1 2. rewrite (layout_this w Hne). apply autoSize_again. }
  split; [exact Hthis|]. intros c. unfold elems_after.
  destruct (layout_elems w1 Hne1) as [m1 [s1 [Hj1 ->]]].
  destruct (layout_elems w Hne) as [m0 [s0 [Hj0 Hel]]]. fold w1 in Hj0, Hel.
  rewrite Htot, Hthis, Hcs1, Hagree in Hj1.
  rewrite Hj0 in Hj1. injection Hj1 as -> ->.
  rewrite Hthis, Hcs1.
  destruct (in_dec Nat.eq_dec c (UIPanel.children w)) as [Hin|Hout].
  - rewrite (place_same_sizes _ _ _ _ c Hs Hin). now rewrite Hel.
  - now rewrite place_outside.
Qed.

(** X11: without [autoSize], or with [justify = start], a second
    [layout] with nothing changed in between changes nothing: the panel and
    every element are as the first [layout] left them. *)
Theorem layout_twice_is_layout_once w :
  UIPanel._autoSize (UIPanel.this w) = false \/
  UIPanel._justify (UIPanel.this w) = justify_start ->
  UIPanel.this (UIPanel.layout (UIPanel.layout w)) = UIPanel.this (UIPanel.layout w) /\
  forall c, elems_after (UIPanel.layout (UIPanel.layout w)) c
            = elems_after (UIPanel.layout w) c.
Proof.
  intros [Hauto|Hstart]; apply layout_again_when_justify_agrees;
    intros n start total more.
  - now rewrite layout_this_without_autoSize.
  - destruct (layout_params w) as (_ & _ & Hj & Hg).
    unfold UIPanel.justify. rewrite Hj, Hg, Hstart. reflexivity.
Qed.

End PanelFacts.

(** * More of the panel: what a position depends on *)

Section IndependenceFacts.
Context {num : Type} {N : Number num}.
Local Open Scope js_scope.

Implicit Types (p : UIPanel.t num) (w : UIPanel.World num).
Implicit Types (els : eid -> UIElement.t num) (cs : list eid).

(** The positioning loop looks at the panel's size, padding, direction and
    alignment only. *)
Lemma place_panel_ext p1 p2 spacing cs :
  UIPanel._width p1 = UIPanel._width p2 ->
  UIPanel._height p1 = UIPanel._height p2 ->
  UIPanel._padding p1 = UIPanel._padding p2 ->
  UIPanel._direction p1 = UIPanel._direction p2 ->
  UIPanel._align p1 = UIPanel._align p2 ->
  forall mainPos els,
    UIPanel.place p1 spacing cs mainPos els = UIPanel.place p2 spacing cs mainPos els.
Proof.
  intros Hw Hh Hp Hd Ha.
  induction cs as [|c rest IH]; intros mainPos els; [reflexivity|].
  rewrite !place_cons, IH.
  unfold UIPanel.placement, UIPanel.advance, UIPanel.crossPos, UIPanel.paddingTop,
    UIPanel.paddingRight, UIPanel.paddingBottom, UIPanel.paddingLeft.
  rewrite Hw, Hh, Hp, Hd, Ha. reflexivity.
Qed.

Lemma autoSize_ext total maxCross p1 p2 :
  UIPanel._autoSize p1 = UIPanel._autoSize p2 ->
  UIPanel._padding p1 = UIPanel._padding p2 ->
  UIPanel._direction p1 = UIPanel._direction p2 ->
  UIPanel._width p1 = UIPanel._width p2 ->
  UIPanel._height p1 = UIPanel._height p2 ->
  let q1 := UIPanel.autoSize total maxCross p1 in
  let q2 := UIPanel.autoSize total maxCross p2 in
  UIPanel._width q1 = UIPanel._width q2 /\ UIPanel._height q1 = UIPanel._height q2.
Proof.
  intros Ha Hp Hd Hw Hh. cbv zeta.
  unfold UIPanel.autoSize, UIPanel.paddingTop, UIPanel.paddingRight,
    UIPanel.paddingBottom, UIPanel.paddingLeft.
  rewrite Ha, Hp, Hd.
  destruct (UIPanel._autoSize p2); [|now split].
  destruct (UIPanel._direction p2); now split.
Qed.

(** Moving one element changes no size. *)
Lemma moved_same_sizes els (c : eid) (v : Vector3 num) :
  same_sizes (upd els c (UIElement.set_position v (els c))) els.
Proof.
  intros k. unfold upd. destruct (Nat.eqb_spec k c) as [->|_]; now split.
Qed.

(** X23: the positions [layout] gives to the children do not depend on
    where the elements were before: two heaps that agree on the sizes of
    the elements give the same panel and the same children. *)
Theorem layout_ignores_old_positions w (els' : eid -> UIElement.t num) c :
  same_sizes els' (UIPanel.elems (UIPanel.heap w)) ->
  In c (UIPanel.children w) ->
  let w' := {| UIPanel.this := UIPanel.this w;
               UIPanel.heap := UIPanel.set_elems els' (UIPanel.heap w) |} in
  UIPanel.this (UIPanel.layout w') = UIPanel.this (UIPanel.layout w) /\
  elems_after (UIPanel.layout w') c = elems_after (UIPanel.layout w) c.
Proof.
  intros Hs Hin w'.
  destruct (layout_same_sizes w' w eq_refl eq_refl Hs) as [Hthis Hel].
  split; [exact Hthis|]. now apply Hel.
Qed.

(** X24: with a single child, [justify = space-between] is
    [justify = start]: [layout] puts every element where it is after
    [setJustify('start')]. *)
Theorem space_between_single_child_is_start w c :
  UIPanel._justify (UIPanel.this w) = justify_space_between ->
  UIPanel.children w = [c] ->
  elems_after (UIPanel.layout w) = elems_after (UIPanel.setJustify justify_start w).
Proof.
  intros Hj Hcs. unfold UIPanel.setJustify.
  set (w' := UIPanel.set_this _ w).
  assert (Hcs' : UIPanel.children w' = [c]) by exact Hcs.
  assert (Hne : UIPanel.children w <> []) by (rewrite Hcs; discriminate).
  assert (Hne' : UIPanel.children w' <> []) by (rewrite Hcs'; discriminate).
  unfold elems_after.
  destruct (layout_elems w Hne) as [m1 [s1 [Hj1 ->]]].
  destruct (layout_elems w' Hne') as [m2 [s2 [Hj2 ->]]].
  rewrite (layout_this w Hne) in *. rewrite (layout_this w' Hne') in *.
  rewrite Hcs, Hcs' in *.
  change (UIPanel.elems (UIPanel.heap w')) with (UIPanel.elems (UIPanel.heap w)) in *.
  set (total := UIPanel.totalMainSize (UIPanel.this w) (UIPanel.elems (UIPanel.heap w)) [c]) in *.
  set (maxCross := UIPanel.maxCrossSize (UIPanel.this w) (UIPanel.elems (UIPanel.heap w)) [c]) in *.
  change (UIPanel.totalMainSize (UIPanel.this w') (UIPanel.elems (UIPanel.heap w)) [c])
    with total in *.
  change (UIPanel.maxCrossSize (UIPanel.this w') (UIPanel.elems (UIPanel.heap w)) [c])
    with maxCross in *.
  destruct (autoSize_params total maxCross (UIPanel.this w)) as (_ & Hp1 & _ & Hd1 & Ha1 & _).
  destruct (autoSize_params total maxCross (UIPanel.this w')) as (_ & Hp2 & _ & Hd2 & Ha2 & _).
  destruct (@autoSize_ext total maxCross (UIPanel.this w) (UIPanel.this w')
              eq_refl eq_refl eq_refl eq_refl eq_refl) as [Hw Hh].
  assert (Hstart : UIPanel.mainStart (UIPanel.autoSize total maxCross (UIPanel.this w))
                   = UIPanel.mainStart (UIPanel.autoSize total maxCross (UIPanel.this w'))).
  { unfold UIPanel.mainStart, UIPanel.paddingLeft, UIPanel.paddingTop.
    rewrite Hw, Hh, Hp1, Hp2, Hd1, Hd2. reflexivity. }
  unfold UIPanel.justify in Hj1, Hj2. rewrite Hj in Hj1.
  change (UIPanel._justify (UIPanel.this w')) with justify_start in Hj2.
  change (1 <? length [c])%nat with false in Hj1.
  cbv beta iota in Hj1, Hj2.
  apply pair_equal_spec in Hj1. destruct Hj1 as [<- <-].
  apply pair_equal_spec in Hj2. destruct Hj2 as [<- <-].
  rewrite Hstart.
  change (UIPanel._gap (UIPanel.this w')) with (UIPanel._gap (UIPanel.this w)).
  apply place_panel_ext;
    [exact Hw|exact Hh|rewrite Hp1, Hp2|rewrite Hd1, Hd2|rewrite Ha1, Ha2]; reflexivity.
Qed.

Lemma place_main_coordinate p1 p2 spacing cs :
  UIPanel._direction p1 = UIPanel._direction p2 ->
  forall mainPos els1 els2 c,
    same_sizes els1 els2 ->
    In c cs ->
    main_coordinate (UIPanel._direction p1) (UIPanel.place p1 spacing cs mainPos els1 c)
    = main_coordinate (UIPanel._direction p1) (UIPanel.place p2 spacing cs mainPos els2 c).
Proof.
  intros Hd. induction cs as [|c0 rest IH]; intros mainPos els1 els2 c Hs Hin;
    [destruct Hin|].
  rewrite !place_cons.
  destruct (Hs c0) as [Hw Hh].
  assert (Hadv : UIPanel.advance p1 spacing mainPos (els1 c0)
                 = UIPanel.advance p2 spacing mainPos (els2 c0)).
  { unfold UIPanel.advance, UIPanel.childMainSize, UIElement.width, UIElement.height.
    rewrite Hd, Hw, Hh. reflexivity. }
  rewrite Hadv.
  destruct (in_dec Nat.eq_dec c rest) as [Hrest|Hrest].
  - apply IH; [|exact Hrest].
    intros k. unfold upd. destruct (Nat.eqb k c0); [simpl; now split|apply Hs].
  - destruct Hin as [->|Hin]; [|contradiction].
    rewrite !place_outside by exact Hrest. rewrite !upd_same.
    unfold main_coordinate, UIPanel.placement, UIPanel.childMainSize,
      UIElement.width, UIElement.height. simpl.
    rewrite <- Hd, Hw, Hh. destruct (UIPanel._direction p1); reflexivity.
Qed.

Lemma layout_cross_position w c :
  In c (UIPanel.children w) ->
  cross_coordinate (UIPanel._direction (UIPanel.this w)) (elems_after (UIPanel.layout w) c)
  = UIPanel.crossPos (UIPanel.this (UIPanel.layout w))
      (UIPanel.childCrossSize (UIPanel._direction (UIPanel.this w))
         (UIPanel.elems (UIPanel.heap w) c)).
Proof.
  intros Hin. destruct (layout_written w c Hin) as [m Hm].
  destruct (layout_params w) as (Hd & _).
  unfold cross_coordinate. rewrite Hm. unfold UIPanel.placement. rewrite Hd.
  destruct (UIPanel._direction (UIPanel.this w)); reflexivity.
Qed.

(** X25: the two axes are independent: [setAlign] leaves every child at
    the main-axis coordinate a plain [layout] gives it, and [setJustify]
    leaves every child at the cross-axis coordinate a plain [layout] gives
    it. *)
Theorem axes_are_independent w c (align : LayoutAlign) (justify : LayoutJustify) :
  In c (UIPanel.children w) ->
  let d := UIPanel._direction (UIPanel.this w) in
  main_coordinate d (elems_after (UIPanel.setAlign align w) c)
    = main_coordinate d (elems_after (UIPanel.layout w) c) /\
  cross_coordinate d (elems_after (UIPanel.setJustify justify w) c)
    = cross_coordinate d (elems_after (UIPanel.layout w) c).
Proof.
  intros Hin d.
  assert (Hne : UIPanel.children w <> []) by (intros E; rewrite E in Hin; destruct Hin).
  split.
  - unfold UIPanel.setAlign. set (w' := UIPanel.set_this _ w).
    assert (Hne' : UIPanel.children w' <> []) by exact Hne.
    unfold elems_after.
    destruct (layout_elems w Hne) as [m1 [s1 [Hj1 ->]]].
    destruct (layout_elems w' Hne') as [m2 [s2 [Hj2 ->]]].
    rewrite (layout_this w Hne) in *. rewrite (layout_this w' Hne') in *.
    change (UIPanel.children w') with (UIPanel.children w) in *.
    change (UIPanel.elems (UIPanel.heap w')) with (UIPanel.elems (UIPanel.heap w)) in *.
    set (els := UIPanel.elems (UIPanel.heap w)) in *.
    set (cs := UIPanel.children w) in *.
    set (total := UIPanel.totalMainSize (UIPanel.this w) els cs) in *.
    set (maxCross := UIPanel.maxCrossSize (UIPanel.this w) els cs) in *.
    change (UIPanel.totalMainSize (UIPanel.this w') els cs) with total in *.
    change (UIPanel.maxCrossSize (UIPanel.this w') els cs) with maxCross in *.
    destruct (autoSize_params total maxCross (UIPanel.this w)) as (_ & Hp1 & _ & Hd1 & _).
    destruct (autoSize_params total maxCross (UIPanel.this w')) as (_ & Hp2 & _ & Hd2 & _).
    destruct (@autoSize_ext total maxCross (UIPanel.this w') (UIPanel.this w)
                eq_refl eq_refl eq_refl eq_refl eq_refl) as [Hw Hh].
    assert (Hstart : UIPanel.mainStart (UIPanel.autoSize total maxCross (UIPanel.this w'))
                     = UIPanel.mainStart (UIPanel.autoSize total maxCross (UIPanel.this w))).
    { unfold UIPanel.mainStart, UIPanel.paddingLeft, UIPanel.paddingTop.
      rewrite Hw, Hh, Hp1, Hp2, Hd1, Hd2. reflexivity. }
    rewrite Hstart in Hj2.
    change (UIPanel.justify (UIPanel.this w') (UIPanel.count cs)
              (UIPanel.mainStart (UIPanel.autoSize total maxCross (UIPanel.this w)))
              (UIPanel.mainSize (UIPanel.this w')) total (1 <? length cs)%nat)
      with (UIPanel.justify (UIPanel.this w) (UIPanel.count cs)
              (UIPanel.mainStart (UIPanel.autoSize total maxCross (UIPanel.this w)))
              (UIPanel.mainSize (UIPanel.this w)) total (1 <? length cs)%nat) in Hj2.
    rewrite Hj1 in Hj2. apply pair_equal_spec in Hj2. destruct Hj2 as [-> ->].
    assert (Hdir : UIPanel._direction (UIPanel.autoSize total maxCross (UIPanel.this w')) = d).
    { rewrite Hd2. reflexivity. }
    rewrite <- Hdir.
    apply place_main_coordinate;
      [rewrite Hd1, Hd2; reflexivity|intros k; now split|exact Hin].
  - unfold UIPanel.setJustify. set (w' := UIPanel.set_this _ w).
    assert (Hin' : In c (UIPanel.children w')) by exact Hin.
    pose proof (layout_cross_position w c Hin) as H1.
    pose proof (layout_cross_position w' c Hin') as H2.
    change (UIPanel._direction (UIPanel.this w')) with d in H2. fold d in H1.
    rewrite H1, H2.
    rewrite (layout_this w Hne), (layout_this w' Hne).
    change (UIPanel.children w') with (UIPanel.children w).
    change (UIPanel.elems (UIPanel.heap w')) with (UIPanel.elems (UIPanel.heap w)).
    set (els := UIPanel.elems (UIPanel.heap w)).
    set (cs := UIPanel.children w).
    set (total := UIPanel.totalMainSize (UIPanel.this w) els cs).
    set (maxCross := UIPanel.maxCrossSize (UIPanel.this w) els cs).
    change (UIPanel.totalMainSize (UIPanel.this w') els cs) with total.
    change (UIPanel.maxCrossSize (UIPanel.this w') els cs) with maxCross.
    destruct (autoSize_params total maxCross (UIPanel.this w)) as (_ & Hp1 & _ & Hd1 & Ha1 & _).
    destruct (autoSize_params total maxCross (UIPanel.this w')) as (_ & Hp2 & _ & Hd2 & Ha2 & _).
    destruct (@autoSize_ext total maxCross (UIPanel.this w') (UIPanel.this w)
                eq_refl eq_refl eq_refl eq_refl eq_refl) as [Hw Hh].
    unfold UIPanel.crossPos, UIPanel.paddingTop, UIPanel.paddingRight,
      UIPanel.paddingBottom, UIPanel.paddingLeft.
    rewrite Hw, Hh, Hp1, Hp2, Hd1, Hd2, Ha1, Ha2. reflexivity.
Qed.

End IndependenceFacts.

(** * More of the layout in exact arithmetic *)

Section MoreLayoutFacts.
Context {num : Type} {N : Number num}.
Local Open Scope js_scope.

Implicit Types (p : UIPanel.t num) (w : UIPanel.World num).
Implicit Types (els : eid -> UIElement.t num) (cs : list eid).

Lemma advance_all_same_sizes p spacing els els' cs : forall mainPos,
  same_sizes els els' ->
  advance_all p spacing els cs mainPos = advance_all p spacing els' cs mainPos.
Proof.
  unfold advance_all. induction cs as [|c rest IH]; intros mainPos Hs; [reflexivity|].
  simpl. destruct (Hs c) as [Hw Hh].
  destruct (placement_sizes p mainPos (els c) (els' c) Hw Hh) as [_ ->].
  now apply IH.
Qed.

(** The last child of a duplicate-free list is placed at the value
    [mainPos] has reached after all the children before it. *)
Lemma place_last p spacing : forall pre final mainPos els,
  NoDup (pre ++ [final]) ->
  UIElement.position (UIPanel.place p spacing (pre ++ [final]) mainPos els final)
  = UIPanel.placement p (advance_all p spacing els pre mainPos) (els final).
Proof.
  induction pre as [|c0 pre IH]; intros final mainPos els Hnd.
  - simpl app. rewrite place_head by (intros []). reflexivity.
  - simpl app in *. inversion Hnd as [|? ? Hc0 Hnd']; subst.
    rewrite place_cons, IH by exact Hnd'.
    assert (Hs : same_sizes
              (upd els c0 (UIElement.set_position
                 (UIPanel.placement p mainPos (els c0)) (els c0))) els).
    { intros k. unfold upd. destruct (Nat.eqb_spec k c0) as [->|_]; now split. }
    rewrite (advance_all_same_sizes _ _ _ _ Hs).
    destruct (Hs final) as [Hw Hh].
    destruct (placement_sizes p
                (advance_all p spacing els pre (UIPanel.advance p spacing mainPos (els c0)))
                _ _ Hw Hh) as [-> _].
    reflexivity.
Qed.

End MoreLayoutFacts.

Section MoreExactFacts.
Local Open Scope js_scope.

Implicit Types (p : UIPanel.t Qc) (w : UIPanel.World Qc).
Implicit Types (els : eid -> UIElement.t Qc) (cs : list eid).

Ltac qc_ops := cbv [add sub mul div neg of_Z Math_max Number_Qc Qc_of_Z] in *.

Lemma Qc_one : Q2Qc (inject_Z 1) = 1%Qc.
Proof. apply Qc_is_canon. reflexivity. Qed.

Lemma Qc_of_Z_add (a b : Z) : Qc_of_Z (a + b) = (Qc_of_Z a + Qc_of_Z b)%Qc.
Proof.
  unfold Qc_of_Z. apply Qc_is_canon. unfold Qcplus, Q2Qc. cbn [this].
  rewrite !Qred_correct, inject_Z_plus. reflexivity.
Qed.

Lemma Qc_of_Z_zero (a : Z) : Qc_of_Z a = 0%Qc -> a = 0%Z.
Proof.
  unfold Qc_of_Z. intros H. change 0%Qc with (Q2Qc 0) in H.
  apply Q2Qc_eq_iff in H. unfold Qeq in H. simpl in H. lia.
Qed.

Lemma count_snoc cs (c : eid) :
  UIPanel.count (cs ++ [c]) = (UIPanel.count cs + 1)%Qc.
Proof.
  unfold UIPanel.count. rewrite length_app, Nat2Z.inj_add. simpl length.
  change (of_Z (Z.of_nat (length cs) + Z.of_nat 1)) with
    (Qc_of_Z (Z.of_nat (length cs) + 1)).
  rewrite Qc_of_Z_add. unfold Qc_of_Z at 2. now rewrite Qc_one.
Qed.

Lemma count_nonneg cs : (UIPanel.count (N := Number_Qc) cs + 1)%Qc <> 0%Qc.
Proof.
  unfold UIPanel.count. change (of_Z (Z.of_nat (length cs))) with (Qc_of_Z (Z.of_nat (length cs))).
  rewrite <- Qc_one. change (Q2Qc (inject_Z 1)) with (Qc_of_Z 1).
  rewrite <- Qc_of_Z_add. intros H. apply Qc_of_Z_zero in H. lia.
Qed.

Lemma count_positive cs : cs <> [] -> UIPanel.count (N := Number_Qc) cs <> 0%Qc.
Proof.
  intros Hne H. apply Qc_of_Z_zero in H. destruct cs; [contradiction|simpl in H; lia].
Qed.

Lemma sum_snoc d els cs (c : eid) :
  sumOfChildMainSizes d els (cs ++ [c])
  = (sumOfChildMainSizes d els cs + UIPanel.childMainSize d (els c))%Qc.
Proof.
  induction cs as [|c0 rest IH]; simpl.
  - qc_ops. rewrite Qc_zero. ring.
  - rewrite IH. qc_ops. ring.
Qed.

(** [mainPos] after a run of children: the start moved by their sizes and
    one spacing each. *)
Lemma advance_all_exact p (spacing : Qc) els cs : forall mainPos : Qc,
  advance_all p spacing els cs mainPos
  = along (UIPanel._direction p) mainPos
      (sumOfChildMainSizes (UIPanel._direction p) els cs + UIPanel.count cs * spacing).
Proof.
  unfold advance_all.
  induction cs as [|c rest IH] using rev_ind; intros mainPos.
  - simpl. unfold along, UIPanel.count. simpl.
    destruct (UIPanel._direction p); qc_ops; rewrite Qc_zero; ring.
  - rewrite fold_left_app. cbn [fold_left]. rewrite IH, sum_snoc, count_snoc.
    unfold UIPanel.advance, along.
    destruct (UIPanel._direction p); qc_ops; ring.
Qed.

Lemma placement_trailing_edge p (m : Qc) (e e' : UIElement.t Qc) :
  UIElement._width e' = UIElement._width e ->
  UIElement._height e' = UIElement._height e ->
  UIElement.position e' = UIPanel.placement p m e ->
  trailing_edge (UIPanel._direction p) e'
  = along (UIPanel._direction p) m (UIPanel.childMainSize (UIPanel._direction p) e).
Proof.
  intros Hw Hh Hp.
  unfold trailing_edge, along, UIElement.width, UIElement.height.
  rewrite Hp, Hw, Hh.
  unfold UIPanel.placement, UIPanel.childMainSize, UIElement.width, UIElement.height.
  destruct (UIPanel._direction p); simpl; qc_ops; rewrite Qc_two; field; discriminate.
Qed.

(** The geometry of a laid-out panel with distinct children, in terms of
    the initial [mainPos] and the [spacing] that [justify] returns. *)
Lemma layout_packing w :
  NoDup (UIPanel.children w) ->
  UIPanel.children w <> [] ->
  let p := UIPanel.this w in
  let p' := UIPanel.this (UIPanel.layout w) in
  let d := UIPanel._direction p in
  let els := UIPanel.elems (UIPanel.heap w) in
  let cs := UIPanel.children w in
  let after := elems_after (UIPanel.layout w) in
  let j := UIPanel.justify p (UIPanel.count cs) (UIPanel.mainStart p') (UIPanel.mainSize p)
             (UIPanel.totalMainSize p els cs) (1 <? length cs)%nat in
  (forall first rest, cs = first :: rest -> leading_edge d (after first) = fst j) /\
  (forall pre a b post, cs = pre ++ a :: b :: post ->
     spacing_between d (after a) (after b) = snd j) /\
  (forall pre final, cs = pre ++ [final] ->
     trailing_edge d (after final)
     = along d (fst j) (sumOfChildMainSizes d els cs + (UIPanel.count cs - 1) * snd j)).
Proof.
  intros Hnd Hne p p' d els cs after j.
  destruct (layout_elems w Hne) as [mainPos [spacing [Hj Hplace]]].
  fold p p' els cs in Hj, Hplace. fold j in Hj.
  destruct (layout_params w) as (Hd & _). fold p p' in Hd.
  assert (Hsz : forall c, UIElement._width (after c) = UIElement._width (els c) /\
                          UIElement._height (after c) = UIElement._height (els c))
    by (intros c; apply layout_sizes).
  rewrite Hj. cbn [fst snd]. unfold d. rewrite <- Hd.
  split; [|split].
  - intros first rest Hcs.
    apply placement_leading_edge with (e := els first); try apply Hsz.
    unfold after, elems_after. rewrite Hplace. fold cs. rewrite Hcs.
    rewrite place_head; [reflexivity|].
    unfold cs in Hcs. rewrite Hcs in Hnd. now inversion Hnd.
  - intros pre a b post Hcs.
    unfold cs in Hcs. rewrite Hcs in Hnd.
    destruct (place_consecutive p' spacing pre a b post mainPos els Hnd) as [m [Ha Hb]].
    rewrite <- Hcs in Ha, Hb. fold cs in Ha, Hb. rewrite <- Hplace in Ha, Hb.
    eapply placement_spacing; try apply Hsz; eassumption.
  - intros pre final Hcs.
    unfold cs in Hcs. rewrite Hcs in Hnd.
    pose proof (place_last p' spacing pre final mainPos els Hnd) as Hlast.
    rewrite <- Hcs in Hlast. fold cs in Hlast. rewrite <- Hplace in Hlast.
    rewrite (placement_trailing_edge p' _ (els final) (after final)
               (proj1 (Hsz final)) (proj2 (Hsz final)) Hlast).
    rewrite advance_all_exact. fold cs. rewrite Hd. fold d.
    replace cs with (pre ++ [final]) by (symmetry; exact Hcs).
    rewrite sum_snoc, count_snoc.
    unfold along. destruct d; qc_ops; rewrite Qc_one; ring.
Qed.

Lemma justify_plain p (n start size total : Qc) more :
  UIPanel._justify p = justify_start \/ UIPanel._justify p = justify_center \/
  UIPanel._justify p = justify_end ->
  snd (UIPanel.justify p n start size total more) = UIPanel._gap p.
Proof. unfold UIPanel.justify. intros [->|[->| ->]]; reflexivity. Qed.

(** X12: unless [justify] is [space-between] or [space-around], the
    space between two consecutive (distinct) children is the configured
    gap, in a row and in a column. *)
Theorem configured_gap_between_children w pre a b post :
  UIPanel._justify (UIPanel.this w) = justify_start \/
  UIPanel._justify (UIPanel.this w) = justify_center \/
  UIPanel._justify (UIPanel.this w) = justify_end ->
  NoDup (UIPanel.children w) ->
  UIPanel.children w = pre ++ a :: b :: post ->
  spacing_between (UIPanel._direction (UIPanel.this w))
    (elems_after (UIPanel.layout w) a) (elems_after (UIPanel.layout w) b)
  = UIPanel._gap (UIPanel.this w).
Proof.
  intros Hj Hnd Hcs.
  assert (Hne : UIPanel.children w <> []) by (rewrite Hcs; now destruct pre).
  destruct (layout_packing w Hnd Hne) as (_ & Hgap & _).
  rewrite (Hgap pre a b post Hcs). now apply justify_plain.
Qed.

(** X13: under [justify = start] the (distinct) children form a block
    that begins at [mainStart] and is [totalMainSize] long: the leading edge
    of the first child is at [mainStart], the trailing edge of the last one
    [totalMainSize] further along the main axis. *)
Theorem start_block_extent w first rest pre final :
  UIPanel._justify (UIPanel.this w) = justify_start ->
  NoDup (UIPanel.children w) ->
  UIPanel.children w = first :: rest ->
  UIPanel.children w = pre ++ [final] ->
  let d := UIPanel._direction (UIPanel.this w) in
  let start := UIPanel.mainStart (UIPanel.this (UIPanel.layout w)) in
  leading_edge d (elems_after (UIPanel.layout w) first) = start /\
  trailing_edge d (elems_after (UIPanel.layout w) final)
  = along d start
      (UIPanel.totalMainSize (UIPanel.this w) (UIPanel.elems (UIPanel.heap w))
         (UIPanel.children w)).
Proof.
  intros Hj Hnd Hfirst Hlast. cbv zeta.
  assert (Hne : UIPanel.children w <> []) by (rewrite Hfirst; discriminate).
  destruct (layout_packing w Hnd Hne) as (Hlead & _ & Htrail).
  rewrite (Hlead first rest Hfirst), (Htrail pre final Hlast).
  rewrite totalMainSize_sum.
  unfold UIPanel.justify. rewrite Hj. cbn [fst snd].
  split; [reflexivity|].
  unfold along. destruct (UIPanel._direction (UIPanel.this w)); qc_ops; ring.
Qed.

(** X14: an auto-sized panel under [justify = start] wraps its
    (distinct) children exactly along the main axis: the trailing edge of
    the last child is on the far edge of the content box of the resized
    panel. *)
Theorem autoSize_start_fills_content w pre final :
  UIPanel._autoSize (UIPanel.this w) = true ->
  UIPanel._justify (UIPanel.this w) = justify_start ->
  NoDup (UIPanel.children w) ->
  UIPanel.children w = pre ++ [final] ->
  trailing_edge (UIPanel._direction (UIPanel.this w)) (elems_after (UIPanel.layout w) final)
  = content_main_end (UIPanel.this (UIPanel.layout w)).
Proof.
  intros Hauto Hj Hnd Hlast.
  assert (Hne : UIPanel.children w <> []) by (rewrite Hlast; now destruct pre).
  destruct (layout_packing w Hnd Hne) as (_ & _ & Htrail).
  rewrite (Htrail pre final Hlast).
  pose proof (layout_autoSize_size w Hauto Hne) as Hsize. cbv zeta in Hsize.
  destruct (layout_params w) as (Hd & Hpad & _).
  unfold UIPanel.justify. rewrite Hj. cbn [fst snd].
  unfold content_main_end, UIPanel.mainStart, along. rewrite Hd.
  unfold UIPanel.paddingLeft, UIPanel.paddingRight, UIPanel.paddingTop,
    UIPanel.paddingBottom in *. rewrite Hpad.
  rewrite totalMainSize_sum in Hsize.
  destruct (UIPanel._direction (UIPanel.this w)); destruct Hsize as [Hmain _];
    rewrite Hmain; destruct (UIPanel._padding (UIPanel.this w)) as [[[pt pr] pb] pl];
    qc_ops; rewrite Qc_two; field; discriminate.
Qed.

(** X15: under [justify = space-between] with more than one (distinct)
    child, the last child ends where the content extent read on entry ends:
    its trailing edge is [mainSize] away from [mainStart] along the main
    axis, in a row and in a column. *)
Theorem space_between_reaches_far_end w pre final :
  UIPanel._justify (UIPanel.this w) = justify_space_between ->
  NoDup (UIPanel.children w) ->
  UIPanel.children w = pre ++ [final] ->
  pre <> [] ->
  trailing_edge (UIPanel._direction (UIPanel.this w)) (elems_after (UIPanel.layout w) final)
  = along (UIPanel._direction (UIPanel.this w))
      (UIPanel.mainStart (UIPanel.this (UIPanel.layout w)))
      (UIPanel.mainSize (UIPanel.this w)).
Proof.
  intros Hj Hnd Hlast Hpre.
  assert (Hne : UIPanel.children w <> []) by (rewrite Hlast; now destruct pre).
  destruct (layout_packing w Hnd Hne) as (_ & _ & Htrail).
  rewrite (Htrail pre final Hlast).
  replace (1 <? length (UIPanel.children w))%nat with true.
  2:{ symmetry. apply Nat.ltb_lt. rewrite Hlast, length_app. simpl.
      destruct pre; [contradiction|simpl; lia]. }
  rewrite justify_space_between_spacing by exact Hj.
  rewrite justify_keeps_mainStart by now right.
  rewrite totalMainSize_sum.
  assert (Hcount : (UIPanel.count (UIPanel.children w) - 1)%js <> 0%Qc).
  { rewrite Hlast, count_snoc. intros H. apply (count_positive Hpre).
    rewrite <- H. qc_ops. rewrite Qc_one. ring. }
  unfold along. destruct (UIPanel._direction (UIPanel.this w));
    qc_ops; rewrite Qc_one in *; field; exact Hcount.
Qed.

(** X16: in a row under [justify = center] the (distinct) children
    leave the same margin on both sides of the content extent read on
    entry: from [mainStart] to the first child and from the last child to
    [mainStart + mainSize] there is [(mainSize - totalMainSize) / 2]. *)
Theorem row_center_margins w first rest pre final :
  UIPanel._direction (UIPanel.this w) = horizontal ->
  UIPanel._justify (UIPanel.this w) = justify_center ->
  NoDup (UIPanel.children w) ->
  UIPanel.children w = first :: rest ->
  UIPanel.children w = pre ++ [final] ->
  let start := UIPanel.mainStart (UIPanel.this (UIPanel.layout w)) in
  let size := UIPanel.mainSize (UIPanel.this w) in
  let total := UIPanel.totalMainSize (UIPanel.this w) (UIPanel.elems (UIPanel.heap w))
                 (UIPanel.children w) in
  (leading_edge horizontal (elems_after (UIPanel.layout w) first) - start
   = (size - total) / 2)%js /\
  (start + size - trailing_edge horizontal (elems_after (UIPanel.layout w) final)
   = (size - total) / 2)%js.
Proof.
  intros Hd Hj Hnd Hfirst Hlast. cbv zeta.
  assert (Hne : UIPanel.children w <> []) by (rewrite Hfirst; discriminate).
  destruct (layout_packing w Hnd Hne) as (Hlead & _ & Htrail).
  rewrite Hd in Hlead, Htrail.
  rewrite (Hlead first rest Hfirst), (Htrail pre final Hlast).
  rewrite totalMainSize_sum, Hd.
  unfold UIPanel.justify. rewrite Hj. cbn [fst snd].
  unfold along. split; qc_ops; rewrite Qc_two; field; discriminate.
Qed.

(** X17: in a row under [justify = end] the last (distinct) child ends
    where the content extent read on entry ends: its trailing edge is at
    [mainStart + mainSize]. *)
Theorem row_end_flush w pre final :
  UIPanel._direction (UIPanel.this w) = horizontal ->
  UIPanel._justify (UIPanel.this w) = justify_end ->
  NoDup (UIPanel.children w) ->
  UIPanel.children w = pre ++ [final] ->
  trailing_edge horizontal (elems_after (UIPanel.layout w) final)
  = (UIPanel.mainStart (UIPanel.this (UIPanel.layout w))
     + UIPanel.mainSize (UIPanel.this w))%js.
Proof.
  intros Hd Hj Hnd Hlast.
  assert (Hne : UIPanel.children w <> []) by (rewrite Hlast; now destruct pre).
  destruct (layout_packing w Hnd Hne) as (_ & _ & Htrail).
  rewrite Hd in Htrail. rewrite (Htrail pre final Hlast).
  rewrite totalMainSize_sum, Hd.
  unfold UIPanel.justify. rewrite Hj. cbn [fst snd].
  unfold along. qc_ops. ring.
Qed.

(** X18: in a row under [justify = space-around] the slack of the
    content extent read on entry is split evenly over [count + 1] places:
    before the first (distinct) child, between any two consecutive
    children and after the last child there is
    [(mainSize - sumOfChildMainSizes) / (count + 1)]. *)
Theorem row_space_around_is_even w first rest pre final :
  UIPanel._direction (UIPanel.this w) = horizontal ->
  UIPanel._justify (UIPanel.this w) = justify_space_around ->
  NoDup (UIPanel.children w) ->
  UIPanel.children w = first :: rest ->
  UIPanel.children w = pre ++ [final] ->
  let start := UIPanel.mainStart (UIPanel.this (UIPanel.layout w)) in
  let size := UIPanel.mainSize (UIPanel.this w) in
  let share :=
    ((size - sumOfChildMainSizes horizontal (UIPanel.elems (UIPanel.heap w))
               (UIPanel.children w))
     / (UIPanel.count (UIPanel.children w) + 1))%js in
  (leading_edge horizontal (elems_after (UIPanel.layout w) first) - start = share)%js /\
  (forall before a b behind,
     UIPanel.children w = before ++ a :: b :: behind ->
     spacing_between horizontal
       (elems_after (UIPanel.layout w) a) (elems_after (UIPanel.layout w) b) = share) /\
  (start + size - trailing_edge horizontal (elems_after (UIPanel.layout w) final)
   = share)%js.
Proof.
  intros Hd Hj Hnd Hfirst Hlast. cbv zeta.
  assert (Hne : UIPanel.children w <> []) by (rewrite Hfirst; discriminate).
  destruct (layout_packing w Hnd Hne) as (Hlead & Hgap & Htrail).
  rewrite Hd in Hlead, Hgap, Htrail.
  pose proof (@count_nonneg (UIPanel.children w)) as Hcount.
  split; [|split].
  - rewrite (Hlead first rest Hfirst), totalMainSize_sum, Hd.
    unfold UIPanel.justify. rewrite Hj. cbn [fst].
    qc_ops. rewrite Qc_one in *. field. exact Hcount.
  - intros before a b behind Hcs.
    rewrite (Hgap before a b behind Hcs), totalMainSize_sum, Hd.
    unfold UIPanel.justify. rewrite Hj. cbn [snd].
    qc_ops. rewrite Qc_one in *. field. exact Hcount.
  - rewrite (Htrail pre final Hlast), totalMainSize_sum, Hd.
    unfold UIPanel.justify. rewrite Hj. cbn [fst snd].
    unfold along. qc_ops. rewrite Qc_one in *. field. exact Hcount.
Qed.

(** X19: in a column the offsets of [justify = center] and
    [justify = end] are added to [mainStart], that is, towards +Y, while
    the children follow each other towards -Y: the top edge of the first
    (distinct) child is [(mainSize - totalMainSize) / 2], respectively
    [mainSize - totalMainSize], above [mainStart], not below it. *)
Theorem column_justify_offsets_go_up w first rest :
  UIPanel._direction (UIPanel.this w) = vertical ->
  NoDup (UIPanel.children w) ->
  UIPanel.children w = first :: rest ->
  let start := UIPanel.mainStart (UIPanel.this (UIPanel.layout w)) in
  let size := UIPanel.mainSize (UIPanel.this w) in
  let total := UIPanel.totalMainSize (UIPanel.this w) (UIPanel.elems (UIPanel.heap w))
                 (UIPanel.children w) in
  (UIPanel._justify (UIPanel.this w) = justify_center ->
   leading_edge vertical (elems_after (UIPanel.layout w) first)
   = (start + (size - total) / 2)%js) /\
  (UIPanel._justify (UIPanel.this w) = justify_end ->
   leading_edge vertical (elems_after (UIPanel.layout w) first)
   = (start + (size - total))%js).
Proof.
  intros Hd Hnd Hfirst. cbv zeta.
  assert (Hne : UIPanel.children w <> []) by (rewrite Hfirst; discriminate).
  destruct (layout_packing w Hnd Hne) as (Hlead & _ & _).
  rewrite Hd in Hlead. rewrite (Hlead first rest Hfirst).
  split; intros Hj; unfold UIPanel.justify; rewrite Hj; cbn [fst];
    [reflexivity|qc_ops; ring].
Qed.

(** *** Across the main axis *)

Lemma layout_align w :
  UIPanel._align (UIPanel.this (UIPanel.layout w)) = UIPanel._align (UIPanel.this w).
Proof.
  destruct (UIPanel.children w) as [|c0 rest] eqn:Hcs.
  - now rewrite layout_nil.
  - rewrite layout_this by (rewrite Hcs; discriminate). apply autoSize_params.
Qed.

Lemma layout_cross_edges w c :
  In c (UIPanel.children w) ->
  let d := UIPanel._direction (UIPanel.this w) in
  let p' := UIPanel.this (UIPanel.layout w) in
  let size := UIPanel.childCrossSize d (UIPanel.elems (UIPanel.heap w) c) in
  (UIPanel._align (UIPanel.this w) = align_start ->
   cross_low_edge d (elems_after (UIPanel.layout w) c) = content_cross_low p' /\
   cross_high_edge d (elems_after (UIPanel.layout w) c) = (content_cross_low p' + size)%Qc) /\
  (UIPanel._align (UIPanel.this w) = align_end ->
   cross_high_edge d (elems_after (UIPanel.layout w) c) = content_cross_high p' /\
   cross_low_edge d (elems_after (UIPanel.layout w) c) = (content_cross_high p' - size)%Qc).
Proof.
  intros Hin. cbv zeta.
  pose proof (layout_cross_position w c Hin) as Hcross.
  destruct (layout_sizes w c) as [Hw Hh].
  destruct (layout_params w) as (Hd & _).
  pose proof (layout_align w) as Hal.
  unfold cross_low_edge, cross_high_edge, content_cross_low, content_cross_high,
    cross_coordinate, UIPanel.crossPos, UIPanel.childCrossSize,
    UIElement.width, UIElement.height in *.
  rewrite Hd, Hal in *. rewrite Hw, Hh.
  split; intros Ha; rewrite Ha in Hcross;
    destruct (UIPanel._direction (UIPanel.this w)); rewrite Hcross;
    split; qc_ops; rewrite Qc_two; field; discriminate.
Qed.

(** X20: [align = start] puts every child with its lower edge (row),
    respectively its left edge (column), on the corresponding edge of the
    content box; [align = end] puts it with its upper, respectively right,
    edge on the opposite edge of the content box. *)
Theorem cross_alignment_is_flush w c :
  In c (UIPanel.children w) ->
  let d := UIPanel._direction (UIPanel.this w) in
  (UIPanel._align (UIPanel.this w) = align_start ->
   cross_low_edge d (elems_after (UIPanel.layout w) c)
   = content_cross_low (UIPanel.this (UIPanel.layout w))) /\
  (UIPanel._align (UIPanel.this w) = align_end ->
   cross_high_edge d (elems_after (UIPanel.layout w) c)
   = content_cross_high (UIPanel.this (UIPanel.layout w))).
Proof.
  intros Hin. destruct (layout_cross_edges w c Hin) as [Hstart Hend].
  split; intros Ha; [now apply Hstart|now apply Hend].
Qed.

Lemma maxCrossSize_upper p els cs c :
  In c cs ->
  (UIPanel.childCrossSize (UIPanel._direction p) (els c) <= UIPanel.maxCrossSize p els cs)%Qc.
Proof.
  intros Hin. unfold UIPanel.maxCrossSize, UIPanel.measure.
  rewrite measure_step_fold. cbn [snd].
  change (@Math_max Qc Number_Qc) with Qc_max.
  apply fold_max_bounds. apply in_map_iff. now exists c.
Qed.

(** X21: with [autoSize] and [align = start] or [align = end], every
    child lies inside the content box of the resized panel across the main
    axis: its low edge is not below, and its high edge not above, the
    corresponding edge of the content box. *)
Theorem autoSize_contains_children_across w c :
  UIPanel._autoSize (UIPanel.this w) = true ->
  UIPanel._align (UIPanel.this w) = align_start \/
  UIPanel._align (UIPanel.this w) = align_end ->
  In c (UIPanel.children w) ->
  let d := UIPanel._direction (UIPanel.this w) in
  let p' := UIPanel.this (UIPanel.layout w) in
  (content_cross_low p' <= cross_low_edge d (elems_after (UIPanel.layout w) c))%Qc /\
  (cross_high_edge d (elems_after (UIPanel.layout w) c) <= content_cross_high p')%Qc.
Proof.
  intros Hauto Halign Hin. cbv zeta.
  assert (Hne : UIPanel.children w <> []) by (intros E; rewrite E in Hin; destruct Hin).
  destruct (layout_cross_edges w c Hin) as [Hstart Hend]. cbv zeta in Hstart, Hend.
  pose proof (@maxCrossSize_upper (UIPanel.this w) (UIPanel.elems (UIPanel.heap w))
                (UIPanel.children w) c Hin) as Hle.
  assert (Hbox : content_cross_high (UIPanel.this (UIPanel.layout w))
                 = (content_cross_low (UIPanel.this (UIPanel.layout w))
                    + UIPanel.maxCrossSize (UIPanel.this w) (UIPanel.elems (UIPanel.heap w))
                        (UIPanel.children w))%Qc).
  { pose proof (layout_autoSize_size w Hauto Hne) as Hsize. cbv zeta in Hsize.
    destruct (layout_params w) as (Hd & Hpad & _).
    unfold content_cross_high, content_cross_low. rewrite Hd.
    unfold UIPanel.paddingLeft, UIPanel.paddingRight, UIPanel.paddingTop,
      UIPanel.paddingBottom in *. rewrite Hpad.
    destruct (UIPanel._direction (UIPanel.this w)); destruct Hsize as [Hx Hy];
      rewrite ?Hx, ?Hy;
      destruct (UIPanel._padding (UIPanel.this w)) as [[[pt pr] pb] pl];
      qc_ops; rewrite Qc_two; field; discriminate. }
  destruct Halign as [Ha|Ha].
  - destruct (Hstart Ha) as [-> ->]. rewrite Hbox.
    split; [apply Qcle_refl|].
    apply Qcplus_le_compat; [apply Qcle_refl|exact Hle].
  - destruct (Hend Ha) as [-> ->].
    split; [|apply Qcle_refl].
    rewrite Hbox.
    match goal with |- (?lo <= ?lo + ?m - ?s)%Qc =>
      replace lo with (lo + m - m)%Qc at 1 by ring end.
    unfold Qcminus. apply Qcplus_le_compat; [apply Qcle_refl|].
    apply Qcopp_le_compat. exact Hle.
Qed.

(** *** Bounds *)

(** X22: the bounds reported by [getWorldBounds] are as wide and as high
    as the element and flat.  With anchor (0, 0) the position is their lower
    left corner, with anchor (1, 1) their upper right corner, and with the
    default anchor (0.5, 0.5) they are centred on the position: in the frame
    in which the element's position is its world position, they are then
    exactly the edges the layout works with (leading and trailing edge in a
    row along X, in a column along Y). *)
Theorem getWorldBounds_extent (e : UIElement.t Qc) (ax ay : Qc) (worldPos : Vector3 Qc) :
  let box := getWorldBounds e (ax, ay) worldPos in
  let lower_left := getWorldBounds e (0%Qc, 0%Qc) worldPos in
  let upper_right := getWorldBounds e (1%Qc, 1%Qc) worldPos in
  let centred := getWorldBounds e (Q2Qc (1 # 2), Q2Qc (1 # 2)) (UIElement.position e) in
  ((x (Box3.max box) - x (Box3.min box) = UIElement.width e)%Qc /\
   (y (Box3.max box) - y (Box3.min box) = UIElement.height e)%Qc /\
   z (Box3.min box) = z worldPos /\ z (Box3.max box) = z worldPos) /\
  (x (Box3.min lower_left) = x worldPos /\ y (Box3.min lower_left) = y worldPos /\
   x (Box3.max upper_right) = x worldPos /\ y (Box3.max upper_right) = y worldPos) /\
  (x (Box3.min centred) = leading_edge horizontal e /\
   x (Box3.max centred) = trailing_edge horizontal e /\
   y (Box3.max centred) = leading_edge vertical e /\
   y (Box3.min centred) = trailing_edge vertical e).
Proof.
  cbv zeta.
  unfold getWorldBounds, leading_edge, trailing_edge, UIElement.width, UIElement.height.
  cbn [Box3.min Box3.max x y z fst snd].
  assert (Hhalf : Q2Qc (1 # 2) = (1 / (1 + 1))%Qc).
  { apply Qc_is_canon. reflexivity. }
  repeat split; qc_ops; rewrite ?Qc_two, ?Hhalf; try reflexivity; field; discriminate.
Qed.

(** *** The gap under [space-between] *)

(** X26: on a panel of fixed size under [justify = space-between] with
    more than one child, the gap is irrelevant in exact arithmetic:
    [setGap] leaves every element where a plain [layout] puts it. *)
Theorem gap_is_irrelevant_under_space_between w (gap : Qc) :
  UIPanel._autoSize (UIPanel.this w) = false ->
  UIPanel._justify (UIPanel.this w) = justify_space_between ->
  (1 < length (UIPanel.children w))%nat ->
  elems_after (UIPanel.setGap gap w) = elems_after (UIPanel.layout w).
Proof.
  intros Hauto Hj Hlen. unfold UIPanel.setGap. set (w' := UIPanel.set_this _ w).
  rewrite (layout_space_between w Hj Hlen).
  rewrite (layout_space_between w' Hj Hlen).
  rewrite (layout_this_without_autoSize w Hauto), (layout_this_without_autoSize w' Hauto).
  change (UIPanel.children w') with (UIPanel.children w).
  change (UIPanel.elems (UIPanel.heap w')) with (UIPanel.elems (UIPanel.heap w)).
  rewrite !totalMainSize_sum.
  change (UIPanel.mainSize (UIPanel.this w')) with (UIPanel.mainSize (UIPanel.this w)).
  change (UIPanel.mainStart (UIPanel.this w')) with (UIPanel.mainStart (UIPanel.this w)).
  change (UIPanel._direction (UIPanel.this w')) with (UIPanel._direction (UIPanel.this w)).
  change (UIPanel._gap (UIPanel.this w')) with gap.
  match goal with
  | |- UIPanel.place _ ?s1 _ _ _ = UIPanel.place _ ?s2 _ _ _ =>
      replace s1 with s2 by (qc_ops; f_equal; ring)
  end.
  apply place_panel_ext; reflexivity.
Qed.

(** Where the panel has a fixed size the extent read on entry is the
    extent of the laid-out panel: under [justify = space-between] with more
    than one child, all distinct, the first child starts at [mainStart] and
    the space between neighbours is the content extent less the children's
    main sizes, divided by [count - 1]. *)
Lemma space_between_spacing_fixed_size (w : UIPanel.World Qc) (first : eid)
  (rest : list eid) :
  UIPanel._autoSize (UIPanel.this w) = false ->
  UIPanel._justify (UIPanel.this w) = justify_space_between ->
  UIPanel.children w = first :: rest ->
  rest <> [] ->
  NoDup (UIPanel.children w) ->
  let laid := UIPanel.layout w in
  let d := UIPanel._direction (UIPanel.this laid) in
  leading_edge d (elems_after laid first) = UIPanel.mainStart (UIPanel.this laid) /\
  forall pre a b post,
    UIPanel.children w = pre ++ a :: b :: post ->
    spacing_between d (elems_after laid a) (elems_after laid b)
    = ((UIPanel.mainSize (UIPanel.this laid)
        - sumOfChildMainSizes d (elems_after laid) (UIPanel.children laid))
       / (UIPanel.count (UIPanel.children laid) - 1))%js.
Proof.
  intros Hauto Hj Hcs Hrest Hnd. cbv zeta.
  destruct (space_between_exact w Hj Hcs Hrest Hnd) as [Hfirst Hgap].
  cbv zeta in Hfirst, Hgap.
  assert (Hsum : forall d cs,
             sumOfChildMainSizes d (elems_after (UIPanel.layout w)) cs
             = sumOfChildMainSizes d (UIPanel.elems (UIPanel.heap w)) cs).
  { intros d cs. induction cs as [|c cs IH]; [reflexivity|].
    cbn [sumOfChildMainSizes]. rewrite IH. f_equal.
    destruct (layout_sizes w c) as [Hw Hh].
    unfold UIPanel.childMainSize, UIElement.width, UIElement.height.
    now rewrite Hw, Hh. }
  rewrite layout_children, Hsum.
  rewrite (layout_this_without_autoSize w Hauto) in *.
  split; [exact Hfirst|exact Hgap].
Qed.

End MoreExactFacts.

(** * The additional properties on concrete scenes *)

Ltac distinct_children := vm_compute; repeat constructor; simpl; lia.

Lemma children_follow_calls_witness :
  let calls :=
    [@UIPanel.AddChild float 2%nat;
     UIPanel.Elsewhere (fun h =>
       UIPanel.set_elems (upd (UIPanel.elems h) 2%nat (element 7%float 7%float)) h);
     UIPanel.SetGap 1%float;
     UIPanel.RemoveChild 2%nat;
     UIPanel.GetChildren;
     UIPanel.AddChild 9%nat] in
  UIPanel.children (UIPanel.run_all calls space_between_scene) =
  fold_left (fun l k => child_list_after k l) calls (UIPanel.children space_between_scene).
Proof.
  cbv zeta. apply children_follow_calls.
  - vm_compute. lia.
  - repeat constructor.
Defined.

Lemma removeChild_absent_is_noop_witness :
  UIPanel.removeChild 7%nat space_between_scene = space_between_scene.
Proof.
  apply removeChild_absent_is_noop. vm_compute. lia.
Defined.

Lemma removeChild_removes_first_occurrence_witness :
  let w := UIPanel.run_all
             [UIPanel.AddChild 1%nat; UIPanel.AddChild 2%nat; UIPanel.AddChild 1%nat]
             (UIPanel.new autosize_center_config (heap_of [(2, 1); (1, 1)]%float)) in
  UIPanel.children (UIPanel.removeChild 1%nat w) = [2; 1]%nat.
Proof.
  cbv zeta.
  apply (@removeChild_removes_first_occurrence float Number_float 1%nat [] [2; 1]%nat).
  - reflexivity.
  - simpl. lia.
Defined.

Lemma addChild_then_removeChild_witness :
  UIPanel.children (UIPanel.removeChild 7%nat (UIPanel.addChild 7%nat space_between_scene))
  = UIPanel.children space_between_scene.
Proof.
  refine (proj1 (@addChild_then_removeChild float Number_float 7%nat space_between_scene _)).
  vm_compute. lia.
Defined.

Lemma emptied_panel_keeps_size_witness :
  size_of (UIPanel.run UIPanel.ClearChildren autosize_column_scene)
  = size_of autosize_column_scene.
Proof.
  refine (proj1 (@emptied_panel_keeps_size float Number_float UIPanel.ClearChildren
                   autosize_column_scene _ _)).
  - now left.
  - reflexivity.
Defined.

Lemma layout_leaves_other_elements_witness :
  elems_after (UIPanel.layout space_between_scene) 7%nat = elems_after space_between_scene 7%nat.
Proof.
  apply layout_leaves_other_elements. vm_compute. lia.
Defined.

Lemma layout_children_depth_witness :
  z (UIElement.position (elems_after (UIPanel.layout space_between_scene) 2%nat)) = lit_0_01.
Proof.
  apply layout_children_depth. vm_compute. lia.
Defined.

Lemma fixed_size_panel_keeps_size_witness :
  let calls :=
    [@UIPanel.AddChild float 4%nat; UIPanel.SetGap 1%float; UIPanel.SetDirection vertical;
     UIPanel.RemoveChild 1%nat; UIPanel.ClearChildren] in
  size_of (UIPanel.run_all calls space_between_scene) = size_of space_between_scene.
Proof.
  cbv zeta. apply fixed_size_panel_keeps_size; reflexivity.
Defined.

Lemma setSize_is_overridden_by_autoSize_witness :
  UIPanel.this (UIPanel.setSize 100%float 100%float autosize_column_scene)
  = UIPanel.this (UIPanel.layout autosize_column_scene).
Proof.
  apply setSize_is_overridden_by_autoSize.
  - reflexivity.
  - vm_compute. discriminate.
Defined.

Lemma layout_twice_is_layout_once_witness :
  UIPanel.this (UIPanel.layout (UIPanel.layout autosize_column_scene))
  = UIPanel.this (UIPanel.layout autosize_column_scene).
Proof.
  refine (proj1 (@layout_twice_is_layout_once float Number_float autosize_column_scene _)).
  right. reflexivity.
Defined.

Lemma configured_gap_between_children_witness :
  let w := exact_scene vertical align_center justify_center false in
  spacing_between vertical (elems_after (UIPanel.layout w) 2%nat)
    (elems_after (UIPanel.layout w) 3%nat)
  = UIPanel._gap (UIPanel.this w).
Proof.
  cbv zeta.
  apply (@configured_gap_between_children
           (exact_scene vertical align_center justify_center false) [1%nat] 2%nat 3%nat []).
  - right. left. reflexivity.
  - distinct_children.
  - reflexivity.
Defined.

Lemma start_block_extent_witness :
  let w := exact_scene horizontal align_start justify_start false in
  leading_edge horizontal (elems_after (UIPanel.layout w) 1%nat)
  = UIPanel.mainStart (UIPanel.this (UIPanel.layout w)).
Proof.
  cbv zeta.
  refine (proj1 (@start_block_extent
                   (exact_scene horizontal align_start justify_start false)
                   1%nat [2; 3]%nat [1; 2]%nat 3%nat _ _ _ _)).
  - reflexivity.
  - distinct_children.
  - reflexivity.
  - reflexivity.
Defined.

Lemma autoSize_start_fills_content_witness :
  let w := exact_scene vertical align_end justify_start true in
  trailing_edge vertical (elems_after (UIPanel.layout w) 3%nat)
  = content_main_end (UIPanel.this (UIPanel.layout w)).
Proof.
  cbv zeta.
  apply (@autoSize_start_fills_content
           (exact_scene vertical align_end justify_start true) [1; 2]%nat 3%nat).
  - reflexivity.
  - reflexivity.
  - distinct_children.
  - reflexivity.
Defined.

Lemma space_between_reaches_far_end_witness :
  let w := exact_scene vertical align_center justify_space_between false in
  trailing_edge vertical (elems_after (UIPanel.layout w) 3%nat)
  = along vertical (UIPanel.mainStart (UIPanel.this (UIPanel.layout w)))
      (UIPanel.mainSize (UIPanel.this w)).
Proof.
  cbv zeta.
  apply (@space_between_reaches_far_end
           (exact_scene vertical align_center justify_space_between false) [1; 2]%nat 3%nat).
  - reflexivity.
  - distinct_children.
  - reflexivity.
  - discriminate.
Defined.

Lemma row_center_margins_witness :
  let w := exact_scene horizontal align_center justify_center false in
  (leading_edge horizontal (elems_after (UIPanel.layout w) 1%nat)
   - UIPanel.mainStart (UIPanel.this (UIPanel.layout w))
   = (UIPanel.mainSize (UIPanel.this w)
      - UIPanel.totalMainSize (UIPanel.this w) (UIPanel.elems (UIPanel.heap w))
          (UIPanel.children w)) / 2)%js.
Proof.
  cbv zeta.
  refine (proj1 (@row_center_margins
                   (exact_scene horizontal align_center justify_center false)
                   1%nat [2; 3]%nat [1; 2]%nat 3%nat _ _ _ _ _)).
  - reflexivity.
  - reflexivity.
  - distinct_children.
  - reflexivity.
  - reflexivity.
Defined.

Lemma row_end_flush_witness :
  let w := exact_scene horizontal align_center justify_end false in
  trailing_edge horizontal (elems_after (UIPanel.layout w) 3%nat)
  = (UIPanel.mainStart (UIPanel.this (UIPanel.layout w))
     + UIPanel.mainSize (UIPanel.this w))%js.
Proof.
  cbv zeta.
  apply (@row_end_flush (exact_scene horizontal align_center justify_end false)
           [1; 2]%nat 3%nat).
  - reflexivity.
  - reflexivity.
  - distinct_children.
  - reflexivity.
Defined.

Lemma row_space_around_is_even_witness :
  let w := exact_scene horizontal align_center justify_space_around false in
  (leading_edge horizontal (elems_after (UIPanel.layout w) 1%nat)
   - UIPanel.mainStart (UIPanel.this (UIPanel.layout w))
   = (UIPanel.mainSize (UIPanel.this w)
      - sumOfChildMainSizes horizontal (UIPanel.elems (UIPanel.heap w)) (UIPanel.children w))
     / (UIPanel.count (UIPanel.children w) + 1))%js.
Proof.
  cbv zeta.
  refine (proj1 (@row_space_around_is_even
                   (exact_scene horizontal align_center justify_space_around false)
                   1%nat [2; 3]%nat [1; 2]%nat 3%nat _ _ _ _ _)).
  - reflexivity.
  - reflexivity.
  - distinct_children.
  - reflexivity.
  - reflexivity.
Defined.

Lemma column_justify_offsets_go_up_witness :
  let w := exact_scene vertical align_center justify_end false in
  leading_edge vertical (elems_after (UIPanel.layout w) 1%nat)
  = (UIPanel.mainStart (UIPanel.this (UIPanel.layout w))
     + (UIPanel.mainSize (UIPanel.this w)
        - UIPanel.totalMainSize (UIPanel.this w) (UIPanel.elems (UIPanel.heap w))
            (UIPanel.children w)))%js.
Proof.
  cbv zeta.
  refine (proj2 (@column_justify_offsets_go_up
                   (exact_scene vertical align_center justify_end false)
                   1%nat [2; 3]%nat _ _ _) _).
  - reflexivity.
  - distinct_children.
  - reflexivity.
  - reflexivity.
Defined.

Lemma cross_alignment_is_flush_witness :
  let w := exact_scene horizontal align_start justify_start false in
  cross_low_edge horizontal (elems_after (UIPanel.layout w) 2%nat)
  = content_cross_low (UIPanel.this (UIPanel.layout w)).
Proof.
  cbv zeta.
  refine (proj1 (@cross_alignment_is_flush
                   (exact_scene horizontal align_start justify_start false) 2%nat _) _).
  - vm_compute. lia.
  - reflexivity.
Defined.

Lemma autoSize_contains_children_across_witness :
  let w := exact_scene horizontal align_end justify_start true in
  (content_cross_low (UIPanel.this (UIPanel.layout w))
   <= cross_low_edge horizontal (elems_after (UIPanel.layout w) 3%nat))%Qc.
Proof.
  cbv zeta.
  refine (proj1 (@autoSize_contains_children_across
                   (exact_scene horizontal align_end justify_start true) 3%nat _ _ _)).
  - reflexivity.
  - right. reflexivity.
  - vm_compute. lia.
Defined.

Lemma layout_ignores_old_positions_witness :
  let w := space_between_scene in
  let moved :=
    upd (UIPanel.elems (UIPanel.heap w)) 2%nat
      (UIElement.set_position {| x := 9%float; y := 9%float; z := 9%float |}
         (UIPanel.elems (UIPanel.heap w) 2%nat)) in
  elems_after
    (UIPanel.layout {| UIPanel.this := UIPanel.this w;
                       UIPanel.heap := UIPanel.set_elems moved (UIPanel.heap w) |}) 2%nat
  = elems_after (UIPanel.layout w) 2%nat.
Proof.
  cbv zeta.
  refine (proj2 (@layout_ignores_old_positions float Number_float space_between_scene
                   _ 2%nat _ _)).
  - apply moved_same_sizes.
  - vm_compute. lia.
Defined.

Lemma space_between_single_child_is_start_witness :
  let w := single_child_space_between_scene in
  elems_after (UIPanel.layout w) = elems_after (UIPanel.setJustify justify_start w).
Proof.
  cbv zeta. apply (@space_between_single_child_is_start float Number_float _ 1%nat).
  - reflexivity.
  - reflexivity.
Defined.

Lemma axes_are_independent_witness :
  main_coordinate horizontal (elems_after (UIPanel.setAlign align_end space_between_scene) 2%nat)
  = main_coordinate horizontal (elems_after (UIPanel.layout space_between_scene) 2%nat).
Proof.
  refine (proj1 (@axes_are_independent float Number_float space_between_scene 2%nat
                   align_end justify_center _)).
  vm_compute. lia.
Defined.

Lemma gap_is_irrelevant_under_space_between_witness :
  let w := exact_scene horizontal align_center justify_space_between false in
  elems_after (UIPanel.setGap (exact 5 1) w) = elems_after (UIPanel.layout w).
Proof.
  cbv zeta. apply gap_is_irrelevant_under_space_between.
  - reflexivity.
  - reflexivity.
  - vm_compute. lia.
Defined.

Lemma child_array_is_always_live_witness :
  array_live
    (UIPanel.run_all [@UIPanel.AddChild float 1%nat; UIPanel.GetChildren; UIPanel.ClearChildren]
       (UIPanel.new autosize_center_config (heap_of [])))%float.
Proof.
  refine (proj1 (proj2 (@child_array_is_always_live float Number_float
                          autosize_center_config (heap_of []) _ _))).
  repeat constructor.
Defined.

(** * The progress bar in exact arithmetic *)

Section BarFacts.
Local Open Scope js_scope.

Implicit Types (b : UIProgressBar.t Qc) (v : Qc).

Ltac qc_ops :=
  cbv [add sub mul div neg of_Z Math_max Math_min lit_0_001 Number_Qc BarNumber_Qc
       Qc_of_Z] in *.

Lemma Qc_max_right (a c : Qc) : (a <= c)%Qc -> Qc_max a c = c.
Proof.
  intros Hle. unfold Qc_max. destruct (a ?= c)%Qc eqn:Hcmp; [|reflexivity|].
  - now apply Qceq_alt in Hcmp.
  - apply Qcgt_alt in Hcmp. exfalso. now apply (Qcle_not_lt a c).
Qed.

Lemma Qc_min_right (a c : Qc) : (c <= a)%Qc -> Qc_min a c = c.
Proof.
  intros Hle. unfold Qc_min. destruct (a ?= c)%Qc eqn:Hcmp; [| |reflexivity].
  - now apply Qceq_alt in Hcmp.
  - apply Qclt_alt in Hcmp. exfalso. now apply (Qcle_not_lt c a).
Qed.

(** X29: after [setValue] and after [setSize] the fill is anchored at the
    low end of the bar (the left edge of a horizontal bar, the lower edge of
    a vertical one) and covers the fraction [value] of its extent, as long as
    that is not less than 0.001. *)
Theorem fill_is_anchored_at_low_end b v (width height : Qc) :
  let b1 := UIProgressBar.setValue v b in
  let b2 := UIProgressBar.setSize width height b in
  ((lit_0_001 <= UIProgressBar.bar_extent b1 * UIProgressBar.getValue b1)%Qc ->
   UIProgressBar.fill_low_edge b1 = UIProgressBar.bar_low_edge b1 /\
   UIProgressBar.fill_extent b1
   = (UIProgressBar.bar_extent b1 * UIProgressBar.getValue b1)%Qc) /\
  ((lit_0_001 <= UIProgressBar.bar_extent b2 * UIProgressBar.getValue b2)%Qc ->
   UIProgressBar.fill_low_edge b2 = UIProgressBar.bar_low_edge b2 /\
   UIProgressBar.fill_extent b2
   = (UIProgressBar.bar_extent b2 * UIProgressBar.getValue b2)%Qc).
Proof.
  cbv zeta. destruct b as [W H value d colour bg fl pos].
  unfold UIProgressBar.setValue, UIProgressBar.setSize, UIProgressBar.getValue,
    UIProgressBar.updateFillPosition, UIProgressBar.updateFillSize,
    UIProgressBar.fill_low_edge, UIProgressBar.fill_extent,
    UIProgressBar.bar_low_edge, UIProgressBar.bar_extent.
  destruct d; cbn -[Math_max Math_min add sub mul div neg of_Z lit_0_001];
    (split; intros Hle; qc_ops; rewrite (Qc_max_right Hle);
     (split; [|reflexivity]); rewrite Qc_two; field; discriminate).
Qed.

Lemma setValue_fill_extent b v :
  UIProgressBar.fill_extent (UIProgressBar.setValue v b)
  = Math_max lit_0_001
      (UIProgressBar.bar_extent b * Math_max 0 (Math_min 1 v))%js.
Proof.
  destruct b as [W H value d colour bg fl pos]. destruct d; reflexivity.
Qed.

Lemma new_fill_extent (config : UIProgressBarConfig.t Qc) :
  UIProgressBar.fill_extent (UIProgressBar.new config)
  = Math_max lit_0_001
      (UIProgressBar.bar_extent (UIProgressBar.new config)
       * UIProgressBar.getValue (UIProgressBar.new config)
       - nullish (UIProgressBarConfig.borderWidth config) 0 * 2)%js.
Proof.
  destruct config as [cw ch cv cbg cfill cradius cborder ccolor cdir].
  destruct cdir as [[|]|]; reflexivity.
Qed.

(** X30: the constructor makes the fill smaller than [extent * value]
    by twice the border width, but [setValue] does not: setting the value a
    new bar already has (between 0 and 1) makes the fill longer by twice the
    border width. *)
Theorem setValue_drops_border_inset (config : UIProgressBarConfig.t Qc) :
  let b := UIProgressBar.new config in
  let borderWidth := nullish (UIProgressBarConfig.borderWidth config) 0%js in
  (0 <= UIProgressBar.getValue b)%Qc ->
  (UIProgressBar.getValue b <= 1)%Qc ->
  (0 <= borderWidth)%Qc ->
  (lit_0_001 <= UIProgressBar.bar_extent b * UIProgressBar.getValue b - borderWidth * 2)%Qc ->
  UIProgressBar.fill_extent b
  = (UIProgressBar.bar_extent b * UIProgressBar.getValue b - borderWidth * 2)%Qc /\
  UIProgressBar.fill_extent (UIProgressBar.setValue (UIProgressBar.getValue b) b)
  = (UIProgressBar.bar_extent b * UIProgressBar.getValue b)%Qc.
Proof.
  cbv zeta. rewrite setValue_fill_extent, new_fill_extent.
  generalize (UIProgressBar.bar_extent (UIProgressBar.new config)) as extent.
  generalize (UIProgressBar.getValue (UIProgressBar.new config)) as value.
  generalize (nullish (UIProgressBarConfig.borderWidth config) 0%js) as bw.
  intros bw value extent H0 H1 Hbw Hle.
  qc_ops. rewrite ?Qc_zero, ?Qc_one in *.
  change (Q2Qc (inject_Z 2)) with 2%Qc in *.
  rewrite (Qc_min_right H1), (Qc_max_right H0), (Qc_max_right Hle).
  split; [reflexivity|].
  apply Qc_max_right. eapply Qcle_trans; [exact Hle|].
  replace (extent * value)%Qc with (extent * value - 0)%Qc at 2 by ring.
  unfold Qcminus. apply Qcplus_le_compat; [apply Qcle_refl|apply Qcopp_le_compat].
  replace 0%Qc with (0 * 2)%Qc by ring.
  apply Qcmult_le_compat_r; [exact Hbw|vm_compute; discriminate].
Qed.

End BarFacts.

(** * The progress bar on binary64 numbers *)

Section FloatOrder.
Local Open Scope float_scope.

(** *** The order of binary64 numbers *)











(** *** [Math.max(0, Math.min(1, value))] *)




End FloatOrder.


Lemma fill_is_anchored_at_low_end_witness :
  let b := UIProgressBar.setValue (exact 1 4) (exact_bar vertical) in
  UIProgressBar.fill_low_edge b = UIProgressBar.bar_low_edge b.
Proof.
  cbv zeta.
  refine (proj1 (proj1 (fill_is_anchored_at_low_end (exact_bar vertical) (exact 1 4)
                          (exact 1 1) (exact 1 1)) _)).
  vm_compute. discriminate.
Defined.

Lemma setValue_drops_border_inset_witness :
  let b := exact_bar horizontal in
  UIProgressBar.fill_extent (UIProgressBar.setValue (UIProgressBar.getValue b) b)
  = (UIProgressBar.bar_extent b * UIProgressBar.getValue b)%Qc.
Proof.
  cbv zeta. unfold exact_bar.
  refine (proj2 (setValue_drops_border_inset _ _ _ _ _)); vm_compute; discriminate.
Defined.
